(** * RAG-little-prince: ingestion and query pipeline

    A shallow embedding of [database.py] and [query.py].

    Python objects that the code mutates ([Document.metadata] dictionaries)
    live in an explicit heap, so that aliasing between chunks is visible.
    Third-party collaborators (the PDF directory loader, the text splitter,
    the Chroma store, the language model) are interfaces whose calls may
    raise; the repository's own control flow is transcribed around them. *)

From Stdlib Require Import Ascii.
From stdpp Require Import base option list gmap strings pretty.


(** ** Python values and exceptions *)

(** The values a metadata dictionary holds. *)
Inductive pyval :=
  | PyNone
  | PyBool (b : bool)
  | PyInt (z : Z)
  | PyStr (s : string).

Global Instance pyval_eq_dec : EqDecision pyval.
Proof. solve_decision. Defined.

(** [str(v)], as used by an f-string replacement field. *)
Definition py_str (v : pyval) : string :=
  match v with
  | PyNone => "None"
  | PyBool true => "True"
  | PyBool false => "False"
  | PyInt z => pretty z
  | PyStr s => s
  end.

Inductive exn :=
  | FileNotFoundError (msg : string)
  | NotADirectoryError (msg : string)
  | ValueError (msg : string)
  | KeyError (key : string)
  | OtherError (cls msg : string).

Inductive result (A : Type) :=
  | Ok (a : A)
  | Raise (e : exn).
Global Arguments Ok {A} a.
Global Arguments Raise {A} e.

(** ** Documents and the heap of metadata dictionaries *)

Definition loc := positive.
Abbreviation dict := (gmap string pyval).
Abbreviation heap := (gmap loc dict).

(** A [Document] carries its text and a reference to its metadata
    dictionary.  Two list entries with the same reference share one
    dictionary. *)
Record Document := mkDocument {
  page_content : string;
  metadata : loc
}.

Global Instance Document_eq_dec : EqDecision Document.
Proof. solve_decision. Defined.

(** The dictionary a reference names.  A reference held by a [Document]
    always names one; reading an unallocated reference as the empty
    dictionary only makes the functions below total. *)
Definition deref (h : heap) (l : loc) : dict := default ∅ (h !! l).

(** [chunk.metadata.get(key)]: [None] when the key is absent. *)
Definition metadata_get (h : heap) (chunk : Document) (key : string) : pyval :=
  default PyNone (deref h (metadata chunk) !! key).

(** [chunk.metadata[key]]: raises [KeyError] when the key is absent. *)
Definition metadata_getitem (h : heap) (chunk : Document) (key : string)
  : result pyval :=
  match deref h (metadata chunk) !! key with
  | Some v => Ok v
  | None => Raise (KeyError key)
  end.

(** [chunk.metadata[key] = v]: in-place update of the shared dictionary. *)
Definition metadata_setitem (h : heap) (chunk : Document) (key : string)
    (v : pyval) : heap :=
  <[metadata chunk := <[key := v]> (deref h (metadata chunk))]> h.

(** ** [calculate_chunk_ids] (database.py) *)

(** The local variables of the loop, together with the heap. *)
Record loop_state := LoopState {
  ls_heap : heap;
  last_page_id : option string;
  current_chunk_index : nat
}.

(** One iteration of [for chunk in chunks]. *)
Definition loop_body (st : loop_state) (chunk : Document) : loop_state :=
  let source := metadata_get (ls_heap st) chunk "source" in
  let page := metadata_get (ls_heap st) chunk "page" in
  let current_page_id := py_str source +:+ ":" +:+ py_str page in
  let current_chunk_index :=
    if decide (Some current_page_id = last_page_id st)
    then current_chunk_index st + 1
    else 0 in
  let chunk_id := current_page_id +:+ ":" +:+ pretty current_chunk_index in
  {| ls_heap := metadata_setitem (ls_heap st) chunk "id" (PyStr chunk_id);
     last_page_id := Some current_page_id;
     current_chunk_index := current_chunk_index |}.

Definition loop_init (h : heap) : loop_state :=
  {| ls_heap := h; last_page_id := None; current_chunk_index := 0 |}.

Definition loop_run (st : loop_state) (chunks : list Document) : loop_state :=
  foldl loop_body st chunks.

(** Returns the very list it was given; the effect is on the heap. *)
Definition calculate_chunk_ids (h : heap) (chunks : list Document)
  : heap * list Document :=
  (ls_heap (loop_run (loop_init h) chunks), chunks).

(** The page key the loop computes for a chunk, read in a given heap. *)
Definition page_key (h : heap) (chunk : Document) : string :=
  py_str (metadata_get h chunk "source") +:+ ":" +:+
  py_str (metadata_get h chunk "page").

(** The ids found in the chunks' metadata once the pass is over. *)
Definition chunk_ids (h : heap) (chunks : list Document) : list pyval :=
  (λ chunk, metadata_get (calculate_chunk_ids h chunks).1 chunk "id")
    <$> chunks.

(** *** The id scheme in the words of the specification *)

Definition chunk_id_of (key : string) (index : nat) : string :=
  key +:+ ":" +:+ pretty index.

(** Length of the run of [key] at the head of a list. *)
Fixpoint run_length (key : string) (keys : list string) : nat :=
  match keys with
  | k :: rest => if decide (k = key) then S (run_length key rest) else 0
  | [] => 0
  end.

(** Position of a chunk inside its run: how many chunks immediately
    before it carry the same page key. *)
Definition sequence_index (before : list string) (key : string) : nat :=
  run_length key (reverse before).

Definition assigned_ids (keys : list string) : list string :=
  imap (λ i key, chunk_id_of key (sequence_index (take i keys) key)) keys.

(** The chunks a page yields, the ids they end up with, and the ids
    [key:0 .. key:n-1]. *)
Definition page_chunks (h : heap) (chunks : list Document) (key : string)
  : list Document :=
  filter (λ chunk, page_key h chunk = key) chunks.

Definition page_ids (h : heap) (chunks : list Document) (key : string)
  : list pyval :=
  (λ chunk, metadata_get (calculate_chunk_ids h chunks).1 chunk "id")
    <$> page_chunks h chunks key.

Definition numbered_ids (key : string) (n : nat) : list pyval :=
  (λ i, PyStr (chunk_id_of key i)) <$> seq 0 n.

(** What is left of a list after its leading run of [key]. *)
Fixpoint drop_run (key : string) (keys : list string) : list string :=
  match keys with
  | k :: rest => if decide (k = key) then drop_run key rest else keys
  | [] => []
  end.

(** Chunks with equal page keys are adjacent: once a run of a key has
    ended, the key does not come back. *)
Fixpoint page_grouped (keys : list string) : bool :=
  match keys with
  | [] => true
  | k :: rest => bool_decide (k ∉ drop_run k rest) && page_grouped rest
  end.

(** ** Exceptions and output *)

Global Instance result_ret : MRet result := λ A a, Ok a.
Global Instance result_bind : MBind result := λ A B f r,
  match r with
  | Ok a => f a
  | Raise e => Raise e
  end.

(** What a run does to the outside world, in order: lines printed and
    calls made to the store ([get], [add_documents], [persist],
    [similarity_search_with_score]) and to the model ([invoke]). *)
Inductive event :=
  | EvPrint (line : string)
  | EvGet
  | EvAddDocuments (docs : list (string * dict)) (ids : list pyval)
  | EvPersist
  | EvSimilaritySearch (query : string) (k : nat)
  | EvInvoke (prompt : string).

(** A computation that logs events and either returns or raises.  The
    events logged before an exception stay in the log. *)
Definition M (A : Type) : Type := list event * result A.

Global Instance M_ret : MRet M := λ A a, ([], Ok a).
Global Instance M_bind : MBind M := λ A B f m,
  match m with
  | (log, Ok a) => let '(log', r) := f a in (log ++ log', r)
  | (log, Raise e) => (log, Raise e)
  end.

Definition lift {A} (r : result A) : M A := ([], r).
(** A call to a collaborator: logged when made, whatever its outcome. *)
Definition call {A} (ev : event) (r : result A) : M A := ([ev], r).
Definition print (line : string) : M unit := ([EvPrint line], Ok tt).

(** A list comprehension [[x for x in l if p(x)]] whose test may raise. *)
Fixpoint filter_result {A} (p : A → result bool) (l : list A)
  : result (list A) :=
  match l with
  | [] => Ok []
  | x :: l' =>
      b ← p x;
      r ← filter_result p l';
      Ok (if b : bool then x :: r else r)
  end.

(** A list comprehension [[f(x) for x in l]] whose body may raise. *)
Fixpoint map_result {A B} (f : A → result B) (l : list A)
  : result (list B) :=
  match l with
  | [] => Ok []
  | x :: l' => y ← f x; r ← map_result f l'; Ok (y :: r)
  end.

(** ** [load_documents_from_directory] (database.py) *)

(** What a path names.  A regular file records the pages a PDF parser
    extracts from it. *)
Inductive fs_node :=
  | RegularFile (pages : list Document)
  | Directory (entries : list string).

Abbreviation filesystem := (gmap string fs_node).

Definition os_path_exists (fs : filesystem) (path : string) : bool :=
  bool_decide (is_Some (fs !! path)).

Definition os_listdir (fs : filesystem) (path : string)
  : result (list string) :=
  match fs !! path with
  | Some (Directory entries) => Ok entries
  | Some (RegularFile _) => Raise (NotADirectoryError path)
  | None => Raise (FileNotFoundError path)
  end.

Section loader.
(** [PyPDFDirectoryLoader(directory_path).load()].  The dictionaries the
    returned documents refer to are the loader's to allocate; only the
    list it returns matters here. *)
Variable PyPDFDirectoryLoader_load :
  filesystem → string → result (list Document).

Definition load_documents_from_directory (fs : filesystem)
    (directory_path : string) : result (list Document) :=
  if negb (os_path_exists fs directory_path) then
    Raise (FileNotFoundError
             ("Directory " +:+ directory_path +:+ " does not exist"))
  else
    entries ← os_listdir fs directory_path;
    if entries is [] then
      Raise (ValueError ("Directory " +:+ directory_path +:+ " is empty"))
    else
      PyPDFDirectoryLoader_load fs directory_path.
End loader.

(** ** [split_documents] (database.py) *)

Section splitter.
(** [RecursiveCharacterTextSplitter(chunk_size, chunk_overlap,
    len).split_documents(documents)] *)
Variable RecursiveCharacterTextSplitter_split_documents :
  Z → Z → list Document → result (list Document).

Definition split_documents (documents : list Document)
    (chunk_size chunk_overlap : Z) : result (list Document) :=
  if documents is [] then
    Raise (ValueError "No documents to split")
  else
    RecursiveCharacterTextSplitter_split_documents
      chunk_size chunk_overlap documents.
End splitter.

(** ** [add_to_chroma] (database.py) *)

(** The part of the Chroma client the code calls, on a store state
    [Store]. *)
Class VectorStore (Store : Type) := {
  (** [db.get(include=[])["ids"]] *)
  db_get : Store → result (list string);
  (** [db.add_documents(docs, ids=ids)] *)
  db_add_documents :
    list (string * dict) → list pyval → Store → result Store;
  (** [db.persist()] *)
  db_persist : Store → result Store
}.

(** [v in s] for a set of strings. *)
Definition py_in (v : pyval) (s : gset string) : bool :=
  match v with
  | PyStr x => bool_decide (x ∈ s)
  | _ => false
  end.

(** The test of the comprehension that selects the new chunks. *)
Definition is_new (h : heap) (existing_ids : gset string) (chunk : Document)
  : bool :=
  negb (py_in (metadata_get h chunk "id") existing_ids).

(** What the store reads off a [Document] it is handed. *)
Definition snapshot (h : heap) (chunk : Document) : string * dict :=
  (page_content chunk, deref h (metadata chunk)).

(** [db] is the store as [Chroma(persist_directory=CHROMA_PATH, ...)]
    opens it; the run returns the store it leaves behind. *)
Definition add_to_chroma {Store} `{!VectorStore Store} (h : heap)
    (db : Store) (chunks : list Document) : heap * M Store :=
  let '(h, chunks_with_ids) := calculate_chunk_ids h chunks in
  (h,
   existing_items ← call EvGet (db_get db);
   let existing_ids : gset string := list_to_set existing_items in
   print ("Number of existing documents in DB: "
          +:+ pretty (size existing_ids));;
   new_chunks ← lift (filter_result
     (λ chunk, id ← metadata_getitem h chunk "id";
               Ok (negb (py_in id existing_ids)))
     chunks_with_ids);
   if new_chunks is [] then
     print "No new documents to add";;
     mret db
   else
     print ("Adding new documents: " +:+ pretty (length new_chunks));;
     new_chunk_ids ← lift (map_result
       (λ chunk, metadata_getitem h chunk "id") new_chunks);
     db ← call (EvAddDocuments (snapshot h <$> new_chunks) new_chunk_ids)
               (db_add_documents (snapshot h <$> new_chunks)
                                 new_chunk_ids db);
     call EvPersist (db_persist db)).

(** The chunks and ids handed to [db.add_documents] during a run. *)
Definition upserted (log : list event)
  : list (list (string * dict) * list pyval) :=
  omap (λ ev, match ev with
              | EvAddDocuments docs ids => Some (docs, ids)
              | _ => None
              end) log.

(** ** [query_rag] (query.py) *)

Definition PROMPT_TEMPLATE : string := "
Answer the question based only on the following context:

{context}

---

Answer the question based on the above context: {question}
".

Definition newline : string := String "010"%char "".

(** The separator between retrieved chunk texts. *)
Definition CONTEXT_SEPARATOR : string :=
  newline +:+ newline +:+ "---" +:+ newline +:+ newline.

Fixpoint kwargs_lookup (kwargs : list (string * string)) (name : string)
  : option string :=
  match kwargs with
  | [] => None
  | (k, v) :: rest => if decide (k = name) then Some v else kwargs_lookup rest name
  end.

(** The fragment of Python format strings the template uses: literal text
    and named replacement fields.  [field] holds the name being read
    between braces.  Substituted text is not scanned again. *)
Fixpoint str_format (kwargs : list (string * string)) (field : option string)
    (template : string) : result string :=
  match template, field with
  | EmptyString, None => Ok ""
  | EmptyString, Some _ =>
      Raise (ValueError "expected '}' before end of string")
  | String c rest, None =>
      if decide (c = "{"%char) then str_format kwargs (Some "") rest
      else if decide (c = "}"%char) then
        Raise (ValueError "Single '}' encountered in format string")
      else s ← str_format kwargs None rest; Ok (String c s)
  | String c rest, Some name =>
      if decide (c = "}"%char) then
        match kwargs_lookup kwargs name with
        | Some v => s ← str_format kwargs None rest; Ok (v +:+ s)
        | None => Raise (KeyError name)
        end
      else str_format kwargs (Some (name +:+ String c "")) rest
  end.

(** [ChatPromptTemplate.from_template(template).format] on keyword
    arguments: the
    template becomes a single human message, and the formatted message
    list is rendered as a string with the role in front. *)
Definition ChatPromptTemplate_format (template : string)
    (kwargs : list (string * string)) : result string :=
  s ← str_format kwargs None template;
  Ok ("Human: " +:+ s).

(** [repr] of the values a source list holds.  Characters stand for code
    points below 256. *)
Fixpoint string_mem (c : ascii) (s : string) : bool :=
  match s with
  | EmptyString => false
  | String c' rest => bool_decide (c' = c) || string_mem c rest
  end.

Definition single_quote : ascii := "039"%char.
Definition double_quote : ascii := "034"%char.
Definition backslash : ascii := "092"%char.

Definition hex_digit (n : N) : ascii :=
  match n with
  | 0 => "0" | 1 => "1" | 2 => "2" | 3 => "3" | 4 => "4" | 5 => "5"
  | 6 => "6" | 7 => "7" | 8 => "8" | 9 => "9" | 10 => "a" | 11 => "b"
  | 12 => "c" | 13 => "d" | 14 => "e" | _ => "f"
  end%char%N.

Definition repr_char (quote c : ascii) : string :=
  let n := N_of_ascii c in
  if bool_decide (c = quote) || bool_decide (c = backslash) then
    String backslash (String c "")
  else if bool_decide (n = 9%N) then String backslash "t"
  else if bool_decide (n = 10%N) then String backslash "n"
  else if bool_decide (n = 13%N) then String backslash "r"
  else if bool_decide (n < 32)%N || bool_decide (127 ≤ n ≤ 160)%N
          || bool_decide (n = 173%N) then
    String backslash
      (String "x" (String (hex_digit (n / 16)) (String (hex_digit (n mod 16)) "")))
  else String c "".

Fixpoint repr_chars (quote : ascii) (s : string) : string :=
  match s with
  | EmptyString => ""
  | String c rest => repr_char quote c +:+ repr_chars quote rest
  end.

Definition py_repr_str (s : string) : string :=
  let quote :=
    if string_mem single_quote s && negb (string_mem double_quote s)
    then double_quote else single_quote in
  String quote (repr_chars quote s) +:+ String quote "".

Definition py_repr (v : pyval) : string :=
  match v with
  | PyStr s => py_repr_str s
  | _ => py_str v
  end.

Definition py_repr_list (l : list pyval) : string :=
  "[" +:+ String.concat ", " (py_repr <$> l) +:+ "]".

Section query.
Context {Store score : Type}.
(** [db.similarity_search_with_score(query_text, k=k)] *)
Variable similarity_search_with_score :
  Store → string → nat → result (list (Document * score)).
(** [Ollama(model="mistral").invoke(prompt)] *)
Variable Ollama_invoke : string → result string.

Definition query_rag (h : heap) (db : Store) (query_text : string)
  : M string :=
  results ← call (EvSimilaritySearch query_text 5)
                 (similarity_search_with_score db query_text 5);
  let context_text :=
    String.concat CONTEXT_SEPARATOR
      ((λ '(doc, _score), page_content doc) <$> results) in
  prompt ← lift (ChatPromptTemplate_format PROMPT_TEMPLATE
                   [("context", context_text); ("question", query_text)]);
  response_text ← call (EvInvoke prompt) (Ollama_invoke prompt);
  let sources :=
    (λ '(doc, _score), metadata_get h doc "id") <$> results in
  let formatted_response :=
    "Response: " +:+ response_text +:+ newline +:+ "Sources: "
    +:+ py_repr_list sources in
  print formatted_response;;
  mret response_text.
End query.

(** ** Module constants, [clear_database], [main] of database.py and
    whole calls *)

(** [DATA_PATH] and [CHROMA_PATH] of database.py. *)
Definition DATA_PATH : string := "books".
Definition CHROMA_PATH : string := "chroma".

(** [get_embedding_function] (get_embedding_function.py): the embedding
    client both programs hand to the store. *)
Inductive embedding_function :=
  | OllamaEmbeddings (model : string).

Definition get_embedding_function : embedding_function :=
  OllamaEmbeddings "nomic-embed-text".

Section entry_points.
Context {Store score : Type} `{!VectorStore Store}.
(** [shutil.rmtree(path)]: the file system it leaves, and whether it
    raised. *)
Variable shutil_rmtree : filesystem → string → filesystem * result unit.
Variable PyPDFDirectoryLoader_load :
  filesystem → string → result (list Document).
Variable RecursiveCharacterTextSplitter_split_documents :
  Z → Z → list Document → result (list Document).
(** [Chroma(persist_directory=path, embedding_function=f)] *)
Variable Chroma : filesystem → string → embedding_function → result Store.
Variable similarity_search_with_score :
  Store → string → nat → result (list (Document * score)).
Variable Ollama_invoke : string → result string.

(** [clear_database] (database.py) *)
Definition clear_database (fs : filesystem) : filesystem * result unit :=
  if os_path_exists fs CHROMA_PATH then shutil_rmtree fs CHROMA_PATH
  else (fs, Ok tt).

(** [main] of database.py, for the parsed [--reset] flag.  [h] is the
    heap in which the documents of the loader and of the splitter live.
    The store is opened by the first statement of [add_to_chroma], once
    loading and splitting are over.  The result is the file system as
    the program's own [os] and [shutil] calls leave it, and the run. *)
Definition database_main (h : heap) (fs : filesystem) (reset : bool)
  : filesystem * M Store :=
  let '(fs, cleared) :=
    if reset then
      let '(fs', r) := clear_database fs in
      (fs', print "Clearing Database";; lift r)
    else (fs, mret tt) in
  (fs,
   cleared;;
   documents ← lift (load_documents_from_directory
                       PyPDFDirectoryLoader_load fs DATA_PATH);
   chunks ← lift (split_documents
                    RecursiveCharacterTextSplitter_split_documents
                    documents 1000 200);
   db ← lift (Chroma fs CHROMA_PATH get_embedding_function);
   (add_to_chroma h db chunks).2).


End entry_points.

(** ** Reference collaborators

    Small executable stand-ins for the third-party services, used to run
    the pipeline on concrete inputs. *)

(** What is known of a store between two runs: ids handed to a successful
    [add_documents] are reported by later [get] calls, ids already there
    stay, and [persist] does not change the id set. *)
Class VectorStoreLaws (Store : Type) `{!VectorStore Store} := {
  db_add_documents_get : ∀ docs ids (db db' : Store) l l',
    db_add_documents docs ids db = Ok db' →
    db_get db = Ok l → db_get db' = Ok l' →
    (∀ i, i ∈ l → i ∈ l') ∧ (∀ i, PyStr i ∈ ids → i ∈ l');
  db_persist_get : ∀ (db db' : Store),
    db_persist db = Ok db' → db_get db' = db_get db
}.

(** An in-memory store: records keyed by id, upsert semantics. *)
Definition upsert_record (m : gmap string (string * dict))
    (r : pyval * (string * dict)) : gmap string (string * dict) :=
  match r.1 with
  | PyStr i => <[i := r.2]> m
  | _ => m
  end.

Global Instance memory_store : VectorStore (gmap string (string * dict)) := {|
  db_get m := Ok (elements (dom m));
  db_add_documents docs ids m :=
    if decide (length docs = length ids)
    then Ok (foldl upsert_record m (zip ids docs))
    else Raise (ValueError "Number of ids does not match number of documents");
  db_persist m := Ok m
|}.

Fixpoint ends_with (suffix s : string) : bool :=
  bool_decide (s = suffix) ||
  match s with
  | String _ rest => ends_with suffix rest
  | EmptyString => false
  end.

(** The file names the directory loader picks up: visible [*.pdf]. *)
Definition is_pdf_name (name : string) : bool :=
  ends_with ".pdf" name &&
  match name with
  | String c _ => negb (bool_decide (c = "."%char))
  | EmptyString => false
  end.

(** A directory loader that returns the pages of every PDF entry. *)
Definition pdf_directory_loader (fs : filesystem) (path : string)
  : result (list Document) :=
  entries ← os_listdir fs path;
  Ok (concat ((λ name,
        if is_pdf_name name then
          match fs !! (path +:+ "/" +:+ name) with
          | Some (RegularFile pages) => pages
          | _ => []
          end
        else []) <$> entries)).

(** ** Example inputs *)

Definition mk_meta (source : string) (page : Z) : dict :=
  {[ "source" := PyStr source; "page" := PyInt page ]}.

(** Three chunks: a page of [a.pdf], a page of [b.pdf], then the page of
    [a.pdf] again. *)
Definition heap_aba : heap :=
  {[ 1%positive := mk_meta "a.pdf" 0;
     2%positive := mk_meta "b.pdf" 0;
     3%positive := mk_meta "a.pdf" 0 ]}.
Definition chunks_aba : list Document :=
  [mkDocument "x" 1%positive; mkDocument "y" 2%positive;
   mkDocument "z" 3%positive].

(** Three chunks of two consecutive pages of one file. *)
Definition heap_aab : heap :=
  {[ 1%positive := mk_meta "doc.pdf" 0;
     2%positive := mk_meta "doc.pdf" 0;
     3%positive := mk_meta "doc.pdf" 1 ]}.
Definition chunks_aab : list Document :=
  [mkDocument "x" 1%positive; mkDocument "y" 2%positive;
   mkDocument "z" 3%positive].

(** The store an ingestion of that batch into an empty store leaves. *)
Definition store_aab : gmap string (string * dict) :=
  match (add_to_chroma heap_aab (∅ : gmap string (string * dict))
           chunks_aab).2.2 with
  | Ok db => db
  | Raise _ => ∅
  end.

(** A two-page document, one chunk per page. *)
Definition heap_two_pages : heap :=
  {[ 1%positive := mk_meta "doc.pdf" 0; 2%positive := mk_meta "doc.pdf" 1 ]}.
Definition chunks_two_pages : list Document :=
  [mkDocument "first page" 1%positive; mkDocument "second page" 2%positive].

Definition store_two_pages : gmap string (string * dict) :=
  match (add_to_chroma heap_two_pages (∅ : gmap string (string * dict))
           chunks_two_pages).2.2 with
  | Ok db => db
  | Raise _ => ∅
  end.

(** A batch that lists one chunk object twice. *)
Definition heap_shared : heap := {[ 1%positive := mk_meta "doc.pdf" 0 ]}.
Definition chunks_shared : list Document :=
  [mkDocument "x" 1%positive; mkDocument "x" 1%positive].

(** A directory that holds a text file and no PDF. *)
Definition fs_notes : filesystem :=
  {[ "books" := Directory ["notes.txt"];
     "books/notes.txt" := RegularFile [] ]}.

(** [shutil.rmtree] on a file system of paths: a directory goes away with
    everything below it; anything else is an error. *)
Definition within (dir path : string) : bool :=
  bool_decide (path = dir) || String.prefix (dir +:+ "/") path.

Definition remove_tree (fs : filesystem) (path : string)
  : filesystem * result unit :=
  match fs !! path with
  | Some (Directory _) => (filter (λ kv, ¬ within path kv.1) fs, Ok tt)
  | Some (RegularFile _) => (fs, Raise (NotADirectoryError path))
  | None => (fs, Raise (FileNotFoundError path))
  end.


(** A working directory with a store directory and a source directory
    that holds one two-page PDF. *)
Definition fs_project : filesystem :=
  {[ "chroma" := Directory ["index.bin"];
     "chroma/index.bin" := RegularFile [];
     "books" := Directory ["doc.pdf"];
     "books/doc.pdf" := RegularFile chunks_two_pages ]}.

(** The same without the source directory. *)
Definition fs_no_books : filesystem :=
  {[ "chroma" := Directory ["index.bin"];
     "chroma/index.bin" := RegularFile [] ]}.

(** A source path that names a regular file. *)
Definition fs_books_file : filesystem := {[ "books" := RegularFile [] ]}.

(** Two chunks whose metadata holds neither source nor page. *)
Definition heap_bare : heap := {[ 1%positive := ∅; 2%positive := ∅ ]}.
Definition chunks_bare : list Document :=
  [mkDocument "x" 1%positive; mkDocument "y" 2%positive].

(** * Properties *)

(** Closed goals about concrete runs are settled by evaluation. *)
Ltac by_evaluation :=
  lazymatch goal with
  | |- ?a = ?b => vm_cast_no_check (@eq_refl _ b)
  | |- Is_true _ => vm_cast_no_check I
  end.

(** ** The heap *)

Section heap_facts.
Implicit Types (h : heap) (l : loc) (d : dict) (chunk : Document).

Lemma deref_insert_eq h l d : deref (<[l := d]> h) l = d.
Proof. unfold deref. by rewrite lookup_insert_eq. Qed.

Lemma deref_insert_ne h l l' d : l ≠ l' → deref (<[l := d]> h) l' = deref h l'.
Proof. intros. unfold deref. by rewrite lookup_insert_ne. Qed.

Lemma deref_lookup_eq h h' l : h' !! l = h !! l → deref h' l = deref h l.
Proof. unfold deref. by intros ->. Qed.

Lemma metadata_get_setitem h chunk key v :
  metadata_get (metadata_setitem h chunk key v) chunk key = v.
Proof.
  unfold metadata_get, metadata_setitem.
  by rewrite deref_insert_eq, lookup_insert_eq.
Qed.

Lemma metadata_setitem_other h chunk key v l :
  l ≠ metadata chunk → metadata_setitem h chunk key v !! l = h !! l.
Proof. intros. unfold metadata_setitem. by rewrite lookup_insert_ne. Qed.

Lemma metadata_setitem_key h chunk key v l k :
  k ≠ key →
  deref (metadata_setitem h chunk key v) l !! k = deref h l !! k.
Proof.
  intros Hk. unfold metadata_setitem.
  destruct (decide (l = metadata chunk)) as [->|Hl].
  - by rewrite deref_insert_eq, lookup_insert_ne.
  - by rewrite deref_insert_ne.
Qed.

Lemma metadata_getitem_get h chunk key v :
  metadata_get h chunk key = v → v ≠ PyNone →
  metadata_getitem h chunk key = Ok v.
Proof.
  unfold metadata_get, metadata_getitem.
  destruct (deref h (metadata chunk) !! key); simpl; congruence.
Qed.
End heap_facts.

(** ** The loop of [calculate_chunk_ids] *)

Section loop_facts.
Implicit Types (h : heap) (st : loop_state) (c : Document)
  (cs pre suf : list Document).

Lemma loop_body_unfold st c :
  loop_body st c =
  let key := page_key (ls_heap st) c in
  let index := if decide (Some key = last_page_id st)
               then current_chunk_index st + 1 else 0 in
  {| ls_heap := metadata_setitem (ls_heap st) c "id"
                  (PyStr (chunk_id_of key index));
     last_page_id := Some key;
     current_chunk_index := index |}.
Proof. reflexivity. Qed.

Lemma loop_run_snoc st cs c :
  loop_run st (cs ++ [c]) = loop_body (loop_run st cs) c.
Proof. unfold loop_run. by rewrite foldl_app. Qed.

Lemma loop_run_app st pre suf :
  loop_run st (pre ++ suf) = loop_run (loop_run st pre) suf.
Proof. unfold loop_run. by rewrite foldl_app. Qed.

(** Dictionaries of other chunks are not touched. *)
Lemma loop_run_heap_other st cs l :
  l ∉ metadata <$> cs → ls_heap (loop_run st cs) !! l = ls_heap st !! l.
Proof.
  revert st. induction cs as [|c cs IH]; intros st Hl; [done|].
  rewrite fmap_cons, not_elem_of_cons in Hl. destruct Hl as [Hc Hcs].
  change (loop_run st (c :: cs)) with (loop_run (loop_body st c) cs).
  rewrite IH by done. rewrite loop_body_unfold. simpl.
  by apply metadata_setitem_other.
Qed.

(** Only the key ["id"] is ever written. *)
Lemma loop_run_heap_key st cs l k :
  k ≠ "id" →
  deref (ls_heap (loop_run st cs)) l !! k = deref (ls_heap st) l !! k.
Proof.
  intros Hk. revert st. induction cs as [|c cs IH]; intros st; [done|].
  change (loop_run st (c :: cs)) with (loop_run (loop_body st c) cs).
  rewrite IH, loop_body_unfold. simpl.
  by apply metadata_setitem_key.
Qed.

Lemma page_key_loop_run h cs c :
  page_key (ls_heap (loop_run (loop_init h) cs)) c = page_key h c.
Proof.
  unfold page_key, metadata_get.
  by rewrite !loop_run_heap_key.
Qed.

(** The two loop variables after any prefix, in terms of the page keys
    of the chunks seen so far. *)
Lemma loop_run_variables h cs :
  let st := loop_run (loop_init h) cs in
  let keys := page_key h <$> cs in
  last_page_id st = last keys ∧
  current_chunk_index st =
    match reverse keys with [] => 0 | k :: r => run_length k r end.
Proof.
  induction cs as [|c cs IH] using rev_ind; [done|].
  simpl in *. destruct IH as [IHlast IHidx].
  rewrite loop_run_snoc, loop_body_unfold, page_key_loop_run.
  rewrite fmap_app. change (page_key h <$> [c]) with [page_key h c].
  rewrite last_snoc, reverse_snoc. simpl.
  split; [done|].
  rewrite IHlast, IHidx, <-head_reverse.
  destruct (reverse (page_key h <$> cs)) as [|k r]; simpl.
  - by repeat case_decide.
  - repeat case_decide; simplify_eq; lia.
Qed.

Lemma loop_body_after_prefix h pre c :
  let key := page_key h c in
  let index := sequence_index (page_key h <$> pre) key in
  loop_body (loop_run (loop_init h) pre) c =
  {| ls_heap := metadata_setitem (ls_heap (loop_run (loop_init h) pre))
                  c "id" (PyStr (chunk_id_of key index));
     last_page_id := Some key;
     current_chunk_index := index |}.
Proof.
  simpl. rewrite loop_body_unfold, page_key_loop_run. simpl.
  destruct (loop_run_variables h pre) as [Hlast Hidx].
  assert ((if decide (Some (page_key h c)
                      = last_page_id (loop_run (loop_init h) pre))
           then current_chunk_index (loop_run (loop_init h) pre) + 1
           else 0)
          = sequence_index (page_key h <$> pre) (page_key h c)) as ->;
    [|done].
  rewrite Hlast, Hidx, <-head_reverse. unfold sequence_index.
  destruct (reverse (page_key h <$> pre)) as [|k r]; simpl.
  - by repeat case_decide.
  - repeat case_decide; simplify_eq; lia.
Qed.

(** The id a chunk holds right after its own iteration. *)
Lemma id_when_written h pre c :
  metadata_get (ls_heap (loop_run (loop_init h) (pre ++ [c]))) c "id" =
  PyStr (chunk_id_of (page_key h c)
           (sequence_index (page_key h <$> pre) (page_key h c))).
Proof.
  rewrite loop_run_snoc, loop_body_after_prefix. simpl.
  apply metadata_get_setitem.
Qed.

(** The id it still holds at the end, unless a later chunk shares its
    dictionary. *)
Lemma id_at_end h pre c suf :
  metadata c ∉ metadata <$> suf →
  metadata_get (calculate_chunk_ids h (pre ++ c :: suf)).1 c "id" =
  PyStr (chunk_id_of (page_key h c)
           (sequence_index (page_key h <$> pre) (page_key h c))).
Proof.
  intros Hsuf. unfold calculate_chunk_ids. simpl.
  rewrite (cons_middle c pre suf), app_assoc, loop_run_app.
  rewrite <-(id_when_written h pre c).
  unfold metadata_get. f_equal. f_equal.
  apply deref_lookup_eq. by apply loop_run_heap_other.
Qed.

(** After the pass every chunk has an ["id"], and it is a string. *)
Lemma loop_run_id_present st cs c :
  c ∈ cs →
  ∃ id d, ls_heap (loop_run st cs) !! metadata c = Some d
          ∧ d !! "id" = Some (PyStr id).
Proof.
  intros Hin. induction cs as [|x cs IH] using rev_ind.
  { by apply elem_of_nil in Hin. }
  rewrite loop_run_snoc, loop_body_unfold. simpl.
  unfold metadata_setitem.
  destruct (decide (metadata x = metadata c)) as [Heq|Hne].
  - rewrite Heq, lookup_insert_eq. eexists _, _. split; [done|].
    by rewrite lookup_insert_eq.
  - rewrite lookup_insert_ne by done. apply IH.
    apply elem_of_app in Hin as [Hin|Hin]; [done|].
    apply list_elem_of_singleton in Hin. by subst.
Qed.

Lemma chunk_id_is_string h cs c :
  c ∈ cs →
  ∃ id, metadata_get (calculate_chunk_ids h cs).1 c "id" = PyStr id.
Proof.
  intros Hin.
  destruct (loop_run_id_present (loop_init h) cs c Hin) as (id & d & Hd & Hid).
  exists id. unfold metadata_get, deref, calculate_chunk_ids. simpl.
  rewrite Hd. simpl. by rewrite Hid.
Qed.

Lemma chunk_ids_no_alias h cs :
  NoDup (metadata <$> cs) →
  chunk_ids h cs = PyStr <$> assigned_ids (page_key h <$> cs).
Proof.
  intros Hnd. apply list_eq. intros i.
  unfold chunk_ids, assigned_ids.
  rewrite !list_lookup_fmap, list_lookup_imap, list_lookup_fmap.
  destruct (cs !! i) as [c|] eqn:Hi; simpl; [|done].
  f_equal.
  rewrite <-(take_drop_middle cs i c Hi) in Hnd.
  rewrite fmap_app, fmap_cons in Hnd.
  apply NoDup_app in Hnd as (_ & _ & Hnd).
  apply NoDup_cons in Hnd as [Hc _].
  pose proof (id_at_end h (take i cs) c (drop (S i) cs) Hc) as Hid.
  rewrite take_drop_middle in Hid by done.
  simpl in Hid. by rewrite Hid, fmap_take.
Qed.
End loop_facts.

(** ** The id format *)

Section id_format.
Lemma append_nil_l s : "" +:+ s = s.
Proof. reflexivity. Qed.

Lemma append_cons_l a s t : String a s +:+ t = String a (s +:+ t).
Proof. reflexivity. Qed.

Lemma string_mem_middle c s d : string_mem c (s +:+ String c d) = true.
Proof.
  induction s as [|a s IH].
  - rewrite append_nil_l. simpl. by rewrite bool_decide_eq_true_2.
  - rewrite append_cons_l. simpl. rewrite IH. apply orb_true_r.
Qed.

Lemma pretty_N_char_not_colon n :
  bool_decide (pretty_N_char n = ":"%char) = false.
Proof.
  apply bool_decide_eq_false_2. unfold pretty_N_char.
  by repeat case_match.
Qed.

Lemma pretty_N_go_no_colon x s :
  string_mem ":" s = false → string_mem ":" (pretty_N_go x s) = false.
Proof.
  revert s. induction (N.lt_wf_0 x) as [x _ IH]; intros s Hs.
  assert (x = 0 ∨ 0 < x)%N as [->|Hx] by lia.
  - by rewrite pretty_N_go_0.
  - rewrite pretty_N_go_step by done. apply IH.
    + by apply N.div_lt.
    + simpl. by rewrite pretty_N_char_not_colon, Hs.
Qed.

(** A decimal numeral holds no colon. *)
Lemma pretty_nat_no_colon (n : nat) : string_mem ":" (pretty n) = false.
Proof.
  unfold pretty, pretty_nat, pretty, pretty_N.
  case_decide; [done|]. by apply pretty_N_go_no_colon.
Qed.

Lemma append_colon_inj s1 s2 d1 d2 :
  string_mem ":" d1 = false → string_mem ":" d2 = false →
  s1 +:+ ":" +:+ d1 = s2 +:+ ":" +:+ d2 → s1 = s2 ∧ d1 = d2.
Proof.
  intros H1 H2. revert s2.
  change (":" +:+ d1) with (String ":" d1).
  change (":" +:+ d2) with (String ":" d2).
  induction s1 as [|a s1 IH]; intros [|b s2] Heq;
    rewrite ?append_cons_l, ?append_nil_l in Heq.
  - by simplify_eq.
  - injection Heq as <- ->. by rewrite string_mem_middle in H1.
  - injection Heq as -> <-. by rewrite string_mem_middle in H2.
  - injection Heq as -> Heq. by destruct (IH _ Heq) as [-> ->].
Qed.

(** The last colon of an id separates the page key from the index, so
    an id determines both. *)
Lemma chunk_id_of_inj k1 i1 k2 i2 :
  chunk_id_of k1 i1 = chunk_id_of k2 i2 → k1 = k2 ∧ i1 = i2.
Proof.
  unfold chunk_id_of. intros Heq.
  apply append_colon_inj in Heq as [-> Hi];
    [|apply pretty_nat_no_colon..].
  split; [done|]. by apply (inj pretty).
Qed.
End id_format.

(** ** Runs of equal page keys *)

Section runs.
Implicit Types (key k : string) (keys : list string) (i j m n : nat).

Lemma run_length_replicate key n keys :
  run_length key (replicate n key ++ keys) = n + run_length key keys.
Proof.
  induction n as [|n IH]; simpl; [done|].
  rewrite decide_True by done. by rewrite IH.
Qed.

Lemma run_length_other key keys :
  head keys ≠ Some key → run_length key keys = 0.
Proof. destruct keys as [|k r]; simpl; [done|]. intros. case_decide; congruence. Qed.

(** Within a run the index grows by one from a chunk to the next. *)
Lemma sequence_index_next keys i key :
  keys !! i = Some key →
  sequence_index (take (S i) keys) key = S (sequence_index (take i keys) key).
Proof.
  intros Hi. unfold sequence_index.
  rewrite (take_S_r _ _ _ Hi), reverse_snoc. simpl.
  by rewrite decide_True.
Qed.

Lemma sequence_index_run keys i j key :
  i ≤ j →
  (∀ m, i ≤ m < j → keys !! m = Some key) →
  sequence_index (take j keys) key =
  (j - i) + sequence_index (take i keys) key.
Proof.
  induction 1 as [|j Hle IH]; intros Hrun.
  - by rewrite Nat.sub_diag.
  - rewrite sequence_index_next by (apply Hrun; lia).
    rewrite IH by (intros; apply Hrun; lia).
    rewrite Nat.sub_succ_l by done. done.
Qed.

Lemma drop_run_suffix key keys :
  ∀ k, k ∈ drop_run key keys → k ∈ keys.
Proof.
  induction keys as [|k' r IH]; simpl; intros k; [done|].
  case_decide; [|done]. intros ?%IH. apply elem_of_cons. by right.
Qed.

Lemma not_after_run key keys j :
  key ∉ drop_run key keys → keys !! j = Some key →
  ∀ m, m ≤ j → keys !! m = Some key.
Proof.
  revert j. induction keys as [|k r IH]; intros j Hnot Hj m Hm; [done|].
  simpl in Hnot. case_decide as Hk.
  - subst k. destruct m as [|m]; [done|].
    destruct j as [|j]; [lia|]. simpl in *.
    apply (IH j); [done..|lia].
  - exfalso. apply Hnot. by eapply list_elem_of_lookup_2.
Qed.

(** In a grouped sequence, two equal keys enclose only that key. *)
Lemma page_grouped_between keys i j key :
  page_grouped keys = true →
  keys !! i = Some key → keys !! j = Some key →
  ∀ m, i ≤ m ≤ j → keys !! m = Some key.
Proof.
  revert i j. induction keys as [|k r IH]; intros i j Hg Hi Hj m Hm;
    [done|].
  simpl in Hg. apply andb_true_iff in Hg as [Hk Hg].
  apply bool_decide_eq_true in Hk.
  destruct i as [|i].
  - simpl in Hi. simplify_eq.
    destruct m as [|m]; [done|].
    destruct j as [|j]; [lia|]. simpl in *.
    apply (not_after_run key r j); [done..|lia].
  - destruct m as [|m]; [lia|]. destruct j as [|j]; [lia|].
    simpl in *. apply (IH i j); [done..|lia].
Qed.

Lemma assigned_ids_lookup keys i key :
  keys !! i = Some key →
  assigned_ids keys !! i
  = Some (chunk_id_of key (sequence_index (take i keys) key)).
Proof.
  intros Hi. unfold assigned_ids.
  by rewrite list_lookup_imap, Hi.
Qed.

Lemma assigned_ids_length keys : length (assigned_ids keys) = length keys.
Proof. unfold assigned_ids. by rewrite length_imap. Qed.

(** Grouped page keys give pairwise distinct ids. *)
Lemma assigned_ids_NoDup keys :
  page_grouped keys = true → NoDup (assigned_ids keys).
Proof.
  intros Hg. apply NoDup_alt.
  assert (∀ i j x, i < j → assigned_ids keys !! i = Some x →
            assigned_ids keys !! j = Some x → False) as Hlt.
  { intros i j x Hij Hi Hj.
    destruct (keys !! i) as [ki|] eqn:Hki; last first.
    { apply lookup_ge_None in Hki. apply lookup_lt_Some in Hi.
      rewrite assigned_ids_length in Hi. lia. }
    destruct (keys !! j) as [kj|] eqn:Hkj; last first.
    { apply lookup_ge_None in Hkj. apply lookup_lt_Some in Hj.
      rewrite assigned_ids_length in Hj. lia. }
    rewrite (assigned_ids_lookup _ _ _ Hki) in Hi.
    rewrite (assigned_ids_lookup _ _ _ Hkj) in Hj.
    injection Hi as <-. injection Hj as Hj.
    apply chunk_id_of_inj in Hj as [-> Hidx].
    rewrite (sequence_index_run keys i j ki) in Hidx; [lia|lia|].
    intros m Hm.
    apply (page_grouped_between keys i j ki); [done..|lia]. }
  intros i j x Hi Hj.
  destruct (Nat.lt_trichotomy i j) as [?|[?|?]]; [|done|];
    exfalso; eauto.
Qed.
End runs.

(** ** Chunk ids: format, pass, frame *)

Section chunk_id_claims.
Implicit Types (h : heap) (chunk : Document) (chunks : list Document)
  (i j : nat).

Lemma append_assoc (s1 s2 s3 : string) :
  (s1 +:+ s2) +:+ s3 = s1 +:+ s2 +:+ s3.
Proof.
  induction s1 as [|a s1 IH]; [done|].
  rewrite !append_cons_l. by rewrite IH.
Qed.

Lemma chunk_id_of_page_key h chunk index :
  chunk_id_of (page_key h chunk) index =
  py_str (metadata_get h chunk "source") +:+ ":" +:+
  py_str (metadata_get h chunk "page") +:+ ":" +:+ pretty index.
Proof. unfold chunk_id_of, page_key. by rewrite !append_assoc. Qed.

End chunk_id_claims.

(** C3. Every chunk's id is ["{source}:{page}:{index}"], where the index
    counts the chunks of the same page immediately before it: the id is
    in the metadata right after the chunk's iteration, and at the end of
    the pass unless a later chunk shares the dictionary.  The ids are a
    function of the page keys alone, so two runs over batches with the
    same page keys assign the same ids. *)
Theorem chunk_id_format_deterministic
    (h : heap) (chunks : list Document) (i : nat) (chunk : Document) :
  chunks !! i = Some chunk →
  let source := py_str (metadata_get h chunk "source") in
  let page := py_str (metadata_get h chunk "page") in
  let sequence_index :=
    sequence_index (page_key h <$> take i chunks) (page_key h chunk) in
  let id := source +:+ ":" +:+ page +:+ ":" +:+ pretty sequence_index in
  metadata_get (ls_heap (loop_run (loop_init h) (take (S i) chunks)))
    chunk "id" = PyStr id
  ∧ (metadata chunk ∉ metadata <$> drop (S i) chunks →
     metadata_get (calculate_chunk_ids h chunks).1 chunk "id" = PyStr id)
  ∧ (∀ h' chunks',
       page_key h' <$> chunks' = page_key h <$> chunks →
       NoDup (metadata <$> chunks) → NoDup (metadata <$> chunks') →
       chunk_ids h' chunks' = chunk_ids h chunks).
Proof.
  intros Hi. simpl. rewrite <-chunk_id_of_page_key.
  split; [|split].
  - rewrite (take_S_r _ _ _ Hi). apply id_when_written.
  - intros Hlater.
    pose proof (id_at_end h (take i chunks) chunk (drop (S i) chunks) Hlater)
      as Hid.
    by rewrite take_drop_middle in Hid.
  - intros h' chunks' Hkeys Hnd Hnd'.
    by rewrite !chunk_ids_no_alias, Hkeys.
Qed.

Lemma chunk_id_format_deterministic_witness :
  metadata_get (calculate_chunk_ids heap_aab chunks_aab).1
    (mkDocument "y" 2%positive) "id" = PyStr "doc.pdf:0:1".
Proof.
  destruct (chunk_id_format_deterministic heap_aab chunks_aab 1
              (mkDocument "y" 2%positive) eq_refl) as (_ & Hend & _).
  apply Hend. vm_compute. intros Hin.
  repeat (apply elem_of_cons in Hin as [Hin|Hin]; [discriminate Hin|]).
  by apply elem_of_nil in Hin.
Defined.

(** C4. The pass keeps only the previous chunk's page key and the running
    index.  At each chunk the index is one more than before when the
    previous chunk has the same page key and 0 otherwise (also when the
    key occurred earlier in the batch); the id ["{page_key}:{index}"] is
    written into the chunk's metadata; the rest of the batch is processed
    from that state. *)
Theorem calculate_chunk_ids_single_pass
    (h : heap) (chunks : list Document) (i : nat) (chunk : Document) :
  chunks !! i = Some chunk →
  let before := loop_run (loop_init h) (take i chunks) in
  let after := loop_run (loop_init h) (take (S i) chunks) in
  let key := page_key h chunk in
  after = loop_body before chunk
  ∧ last_page_id before = (if i is S j then page_key h <$> chunks !! j else None)
  ∧ last_page_id after = Some key
  ∧ (i = 0 → current_chunk_index after = 0)
  ∧ (∀ j prev, i = S j → chunks !! j = Some prev →
       page_key h prev = key →
       current_chunk_index after = current_chunk_index before + 1)
  ∧ (∀ j prev, i = S j → chunks !! j = Some prev →
       page_key h prev ≠ key →
       current_chunk_index after = 0)
  ∧ metadata_get (ls_heap after) chunk "id"
    = PyStr (key +:+ ":" +:+ pretty (current_chunk_index after))
  ∧ calculate_chunk_ids h chunks
    = (ls_heap (loop_run after (drop (S i) chunks)), chunks).
Proof.
  intros Hi. simpl.
  rewrite (take_S_r _ _ _ Hi), loop_run_snoc.
  assert (last_page_id (loop_run (loop_init h) (take i chunks))
          = (if i is S j then page_key h <$> chunks !! j else None))
    as Hlast.
  { destruct (loop_run_variables h (take i chunks)) as [-> _].
    destruct i as [|j]; [done|].
    assert (is_Some (chunks !! j)) as [prev Hj].
    { apply lookup_lt_is_Some. apply lookup_lt_Some in Hi. lia. }
    by rewrite (take_S_r _ _ _ Hj), fmap_snoc, last_snoc, Hj. }
  split; [done|]. split; [done|].
  rewrite loop_body_unfold, page_key_loop_run. simpl. rewrite Hlast.
  split; [done|].
  split; [|split; [|split; [|split]]].
  - by intros ->.
  - intros j prev -> Hj Hkey. rewrite Hj. simpl. rewrite Hkey.
    by rewrite decide_True.
  - intros j prev -> Hj Hkey. rewrite Hj. simpl.
    rewrite decide_False; [done|congruence].
  - apply metadata_get_setitem.
  - unfold calculate_chunk_ids. f_equal.
    rewrite <-(take_drop_middle chunks i chunk Hi) at 1.
    rewrite (cons_middle chunk), app_assoc, loop_run_app, loop_run_snoc.
    rewrite loop_body_unfold, page_key_loop_run. simpl. by rewrite Hlast.
Qed.

Lemma calculate_chunk_ids_single_pass_witness :
  current_chunk_index (loop_run (loop_init heap_aba) (take 3 chunks_aba)) = 0
  ∧ metadata_get (ls_heap (loop_run (loop_init heap_aba) (take 3 chunks_aba)))
      (mkDocument "z" 3%positive) "id" = PyStr "a.pdf:0:0".
Proof.
  destruct (calculate_chunk_ids_single_pass heap_aba chunks_aba 2
              (mkDocument "z" 3%positive) eq_refl)
    as (_ & _ & _ & _ & _ & Hreset & Hid & _).
  assert (current_chunk_index
            (loop_run (loop_init heap_aba) (take 3 chunks_aba)) = 0) as H0.
  { apply (Hreset 1 (mkDocument "y" 2%positive) eq_refl eq_refl).
    vm_compute. discriminate. }
  split; [exact H0|].
  rewrite Hid, H0. reflexivity.
Defined.


(** Where the defect does not show: in a batch of distinct chunk objects
    whose page keys are grouped (chunks of one page are adjacent), the
    ids are pairwise distinct. *)
Theorem chunk_ids_distinct_when_grouped (h : heap) (chunks : list Document) :
  NoDup (metadata <$> chunks) →
  page_grouped (page_key h <$> chunks) = true →
  NoDup (chunk_ids h chunks).
Proof.
  intros Hnd Hg. rewrite chunk_ids_no_alias by done.
  apply NoDup_fmap_2; [by intros ?? [=]|].
  by apply assigned_ids_NoDup.
Qed.

Lemma chunk_ids_distinct_when_grouped_witness :
  NoDup (chunk_ids heap_aab chunks_aab).
Proof.
  apply chunk_ids_distinct_when_grouped.
  - apply (bool_decide_unpack _). by vm_compute.
  - by vm_compute.
Defined.

(** ** The ids of one page *)

Section page_runs.
Implicit Types (h : heap) (c : Document) (pre run suf : list Document)
  (key : string).

Lemma filter_page_none h key cs :
  key ∉ page_key h <$> cs → filter (λ c, page_key h c = key) cs = [].
Proof.
  induction cs as [|c cs IH]; [done|].
  rewrite fmap_cons, not_elem_of_cons. intros [Hc Hcs].
  rewrite filter_cons_False by congruence. by apply IH.
Qed.

Lemma filter_page_all h key cs :
  Forall (λ c, page_key h c = key) cs →
  filter (λ c, page_key h c = key) cs = cs.
Proof.
  induction 1 as [|c cs Hc _ IH]; [done|].
  rewrite filter_cons_True by done. by rewrite IH.
Qed.

Lemma page_chunks_run h pre run suf key :
  Forall (λ c, page_key h c = key) run →
  key ∉ page_key h <$> pre → key ∉ page_key h <$> suf →
  page_chunks h (pre ++ run ++ suf) key = run.
Proof.
  intros Hrun Hpre Hsuf. unfold page_chunks.
  rewrite !filter_app.
  rewrite (filter_page_none h key pre), (filter_page_none h key suf) by done.
  rewrite filter_page_all by done. by rewrite app_nil_r.
Qed.

(** Position inside a run that starts right after [pre]. *)
Lemma sequence_index_in_run h pre run j key :
  Forall (λ c, page_key h c = key) run →
  key ∉ page_key h <$> pre →
  sequence_index (page_key h <$> (pre ++ take j run)) key
  = length (take j run).
Proof.
  intros Hrun Hpre. unfold sequence_index.
  rewrite fmap_app, reverse_app.
  assert (page_key h <$> take j run = replicate (length (take j run)) key)
    as ->.
  { apply Forall_take with (n := j) in Hrun.
    induction Hrun as [|c cs Hc _ IH]; [done|].
    by rewrite fmap_cons, Hc, IH. }
  rewrite reverse_replicate, run_length_replicate.
  rewrite run_length_other; [lia|].
  rewrite head_reverse. intros Hlast. apply Hpre.
  by apply last_Some_elem_of.
Qed.
End page_runs.


(** Where the defect does not show: when the chunks of a page form one
    uninterrupted run of the batch (of distinct chunk objects), a page
    yielding N chunks gets exactly the ids [key:0 .. key:N-1], in
    order. *)
Theorem page_ids_numbered_when_contiguous
    (h : heap) (pre run suf : list Document) (key : string) :
  Forall (λ chunk, page_key h chunk = key) run →
  key ∉ page_key h <$> pre →
  key ∉ page_key h <$> suf →
  NoDup (metadata <$> (pre ++ run ++ suf)) →
  page_chunks h (pre ++ run ++ suf) key = run
  ∧ page_ids h (pre ++ run ++ suf) key = numbered_ids key (length run).
Proof.
  intros Hrun Hpre Hsuf Hnd.
  pose proof (page_chunks_run h pre run suf key Hrun Hpre Hsuf) as Hchunks.
  split; [done|].
  unfold page_ids, numbered_ids. rewrite Hchunks.
  rewrite <-imap_seq_0, <-imap_const.
  apply imap_ext. intros j c Hj. unfold const. cbv beta.
  assert (pre ++ run ++ suf
          = (pre ++ take j run) ++ c :: (drop (S j) run ++ suf)) as Hsplit.
  { rewrite <-(take_drop_middle run j c Hj) at 1.
    by rewrite <-!app_assoc. }
  rewrite Hsplit in Hnd |- *.
  rewrite fmap_app, fmap_cons in Hnd.
  apply NoDup_app in Hnd as (_ & _ & Hnd).
  apply NoDup_cons in Hnd as [Hc _].
  rewrite id_at_end by done.
  rewrite Forall_lookup in Hrun. rewrite (Hrun j c Hj).
  rewrite sequence_index_in_run; [|by apply Forall_lookup|done].
  rewrite length_take_le; [done|].
  apply lookup_lt_Some in Hj. lia.
Qed.

Lemma page_ids_numbered_when_contiguous_witness :
  page_ids heap_aab chunks_aab "doc.pdf:0"
  = [PyStr "doc.pdf:0:0"; PyStr "doc.pdf:0:1"].
Proof.
  refine (proj2 (page_ids_numbered_when_contiguous heap_aab []
    [mkDocument "x" 1%positive; mkDocument "y" 2%positive]
    [mkDocument "z" 3%positive] "doc.pdf:0" _ _ _ _)).
  - repeat constructor.
  - apply not_elem_of_nil.
  - apply (bool_decide_unpack _). by vm_compute.
  - apply (bool_decide_unpack _). by vm_compute.
Defined.

(** C10. The pass returns the list it was given: same chunks, same
    order, same length, same texts.  In the heap it changes
    nothing but the key ["id"] of the chunks' own dictionaries: every
    other key of every dictionary, and every dictionary no chunk refers
    to, is as before; each chunk's dictionary is its old one with ["id"]
    set, reachable through the same reference. *)
Theorem calculate_chunk_ids_frame (h : heap) (chunks : list Document) :
  let h' := (calculate_chunk_ids h chunks).1 in
  let returned := (calculate_chunk_ids h chunks).2 in
  returned = chunks
  ∧ length returned = length chunks
  ∧ page_content <$> returned = page_content <$> chunks
  ∧ (∀ l key, key ≠ "id" → deref h' l !! key = deref h l !! key)
  ∧ (∀ l, l ∉ metadata <$> chunks → h' !! l = h !! l)
  ∧ (∀ chunk, chunk ∈ chunks →
       metadata_get h' chunk "source" = metadata_get h chunk "source"
       ∧ metadata_get h' chunk "page" = metadata_get h chunk "page"
       ∧ ∃ id, h' !! metadata chunk
               = Some (<["id" := PyStr id]> (deref h (metadata chunk)))).
Proof.
  simpl. split; [done|]. split; [done|]. split; [done|]. split; [|split].
  - intros l key Hkey. by apply loop_run_heap_key.
  - intros l Hl. by apply loop_run_heap_other.
  - intros chunk Hin.
    unfold metadata_get. rewrite !loop_run_heap_key by done.
    split; [done|]. split; [done|].
    destruct (loop_run_id_present (loop_init h) chunks chunk Hin)
      as (id & d & Hd & Hid).
    exists id. rewrite Hd. f_equal.
    apply map_eq. intros key.
    destruct (decide (key = "id")) as [->|Hkey].
    + by rewrite lookup_insert_eq.
    + rewrite lookup_insert_ne by done.
      rewrite <-(loop_run_heap_key (loop_init h) chunks) by done.
      unfold deref. by rewrite Hd.
Qed.

(** ** Loading and splitting *)

(** C7 as stated fails: a directory whose only entry is a text file has
    no ingestible file, yet nothing is raised; the loader's (empty)
    result is returned. *)
Lemma loader_accepts_directory_without_pdf :
  os_listdir fs_notes "books" = Ok ["notes.txt"]
  ∧ filter is_pdf_name ["notes.txt"] = []
  ∧ load_documents_from_directory pdf_directory_loader fs_notes "books"
    = Ok [].
Proof. by vm_compute. Qed.

(** C7, amended. A path that does not exist raises [FileNotFoundError]; a
    directory without any entry raises [ValueError] (empty input); a
    directory with at least one entry, ingestible or not, yields whatever
    the PDF directory loader returns.  No documents come out of the two
    failures. *)
Theorem load_documents_from_directory_cases
    (loader : filesystem → string → result (list Document))
    (fs : filesystem) (path : string) :
  (fs !! path = None →
   load_documents_from_directory loader fs path
   = Raise (FileNotFoundError ("Directory " +:+ path +:+ " does not exist")))
  ∧ (fs !! path = Some (Directory []) →
     load_documents_from_directory loader fs path
     = Raise (ValueError ("Directory " +:+ path +:+ " is empty")))
  ∧ (∀ entry entries, fs !! path = Some (Directory (entry :: entries)) →
     load_documents_from_directory loader fs path = loader fs path).
Proof.
  unfold load_documents_from_directory, os_path_exists, os_listdir.
  split; [|split].
  - intros ->. by rewrite bool_decide_eq_false_2 by by intros [??].
  - intros ->. by rewrite bool_decide_eq_true_2 by by eexists.
  - intros entry entries ->. by rewrite bool_decide_eq_true_2 by by eexists.
Qed.

Lemma load_documents_from_directory_cases_witness :
  load_documents_from_directory pdf_directory_loader fs_notes "data"
  = Raise (FileNotFoundError "Directory data does not exist")
  ∧ load_documents_from_directory pdf_directory_loader
      (<["empty" := Directory []]> fs_notes) "empty"
    = Raise (ValueError "Directory empty is empty")
  ∧ load_documents_from_directory pdf_directory_loader fs_notes "books"
    = pdf_directory_loader fs_notes "books".
Proof.
  split; [|split].
  - apply (load_documents_from_directory_cases pdf_directory_loader
             fs_notes "data"). by vm_compute.
  - apply (load_documents_from_directory_cases pdf_directory_loader
             (<["empty" := Directory []]> fs_notes) "empty"). by vm_compute.
  - apply (load_documents_from_directory_cases pdf_directory_loader
             fs_notes "books") with "notes.txt" []. by vm_compute.
Defined.

(** X10. A path that names a regular file fails in the directory
    listing, with [NotADirectoryError]. *)
Lemma load_documents_from_regular_file loader fs path pages :
  fs !! path = Some (RegularFile pages) →
  load_documents_from_directory loader fs path
  = Raise (NotADirectoryError path).
Proof.
  intros Hfile.
  unfold load_documents_from_directory, os_path_exists, os_listdir.
  rewrite Hfile. by rewrite bool_decide_eq_true_2 by by eexists.
Qed.

(** C8. With a text splitter that returns for the given parameters, the
    empty-input [ValueError] is raised exactly for the empty document
    list, and every non-empty list yields the splitter's chunks. *)
Theorem split_documents_empty_input
    (splitter : Z → Z → list Document → result (list Document))
    (documents : list Document) (chunk_size chunk_overlap : Z) :
  (documents ≠ [] →
   ∃ chunks, splitter chunk_size chunk_overlap documents = Ok chunks) →
  (split_documents splitter documents chunk_size chunk_overlap
   = Raise (ValueError "No documents to split") ↔ documents = [])
  ∧ (documents ≠ [] →
     ∃ chunks,
       split_documents splitter documents chunk_size chunk_overlap
       = Ok chunks
       ∧ splitter chunk_size chunk_overlap documents = Ok chunks).
Proof.
  intros Hsplit. destruct documents as [|doc docs]; simpl.
  - split; [done|]. by intros [].
  - destruct Hsplit as [chunks Hchunks]; [done|].
    rewrite Hchunks. split; [split; intros; simplify_eq|]. eauto.
Qed.

Lemma split_documents_empty_input_witness :
  split_documents (λ _ _ docs, Ok docs) [] 1000 200
  = Raise (ValueError "No documents to split")
  ∧ ∃ chunks,
      split_documents (λ _ _ docs, Ok docs)
        [mkDocument "page" 1%positive] 1000 200 = Ok chunks.
Proof.
  split.
  - apply (split_documents_empty_input (λ _ _ docs, Ok docs) [] 1000 200);
      [by intros []|done].
  - destruct (split_documents_empty_input (λ _ _ docs, Ok docs)
                [mkDocument "page" 1%positive] 1000 200) as [_ Hsome].
    + intros _. by eexists.
    + destruct Hsome as (chunks & Hchunks & _); [done|]. by exists chunks.
Defined.

(** ** Deduplication *)

Section comprehension.
Context {A B : Type}.

Lemma filter_result_ok (p : A → result bool) (q : A → bool) (l : list A) :
  (∀ x, x ∈ l → p x = Ok (q x)) →
  filter_result p l = Ok (filter (λ x, q x) l).
Proof.
  induction l as [|x l IH]; intros Hp; [done|].
  simpl. rewrite (Hp x) by (apply elem_of_cons; auto).
  simpl. rewrite IH by (intros; apply Hp, elem_of_cons; auto).
  simpl. rewrite filter_cons.
  by destruct (q x); case_decide as HP; simpl in HP.
Qed.

Lemma map_result_ok (f : A → result B) (g : A → B) (l : list A) :
  (∀ x, x ∈ l → f x = Ok (g x)) → map_result f l = Ok (g <$> l).
Proof.
  induction l as [|x l IH]; intros Hf; [done|].
  simpl. rewrite (Hf x) by (apply elem_of_cons; auto).
  simpl. by rewrite IH by (intros; apply Hf, elem_of_cons; auto).
Qed.
End comprehension.

Section add_to_chroma_facts.
Context {Store : Type} `{!VectorStore Store}.
Implicit Types (h : heap) (db : Store) (chunks : list Document)
  (existing : list string).

Lemma metadata_getitem_id h chunks chunk :
  chunk ∈ chunks →
  metadata_getitem (calculate_chunk_ids h chunks).1 chunk "id"
  = Ok (metadata_get (calculate_chunk_ids h chunks).1 chunk "id").
Proof.
  intros Hin. destruct (chunk_id_is_string h chunks chunk Hin) as [id Hid].
  apply metadata_getitem_get; [done|]. by rewrite Hid.
Qed.

(** The run, once the store has answered the id query. *)
Lemma add_to_chroma_unfold h db chunks existing :
  db_get db = Ok existing →
  add_to_chroma h db chunks =
  let h1 := (calculate_chunk_ids h chunks).1 in
  let existing_ids : gset string := list_to_set existing in
  let new_chunks := filter (λ chunk, is_new h1 existing_ids chunk) chunks in
  let docs := snapshot h1 <$> new_chunks in
  let ids := (λ chunk, metadata_get h1 chunk "id") <$> new_chunks in
  let counted :=
    [EvGet;
     EvPrint ("Number of existing documents in DB: "
              +:+ pretty (size existing_ids))] in
  let adding :=
    [EvPrint ("Adding new documents: " +:+ pretty (length new_chunks));
     EvAddDocuments docs ids] in
  (h1,
   if new_chunks is [] then
     (counted ++ [EvPrint "No new documents to add"], Ok db)
   else
     match db_add_documents docs ids db with
     | Ok db' => (counted ++ adding ++ [EvPersist], db_persist db')
     | Raise e => (counted ++ adding, Raise e)
     end).
Proof.
  intros Hget. unfold add_to_chroma. simpl. f_equal.
  rewrite Hget. simpl.
  rewrite (filter_result_ok _
    (is_new (ls_heap (loop_run (loop_init h) chunks))
       (list_to_set existing)));
    last first.
  { intros chunk Hin.
    pose proof (metadata_getitem_id h chunks chunk Hin) as Hid.
    simpl in Hid. by rewrite Hid. }
  simpl.
  set (new_chunks := filter _ chunks).
  assert (∀ chunk, chunk ∈ new_chunks → chunk ∈ chunks) as Hsub.
  { intros chunk Hin. by apply list_elem_of_filter in Hin as [_ ?]. }
  clearbody new_chunks.
  destruct new_chunks as [|c new]; [done|].
  simpl.
  rewrite (map_result_ok _
    (λ chunk, metadata_get (ls_heap (loop_run (loop_init h) chunks))
                chunk "id")); last first.
  { intros chunk Hin.
    apply (metadata_getitem_id h chunks), Hsub, elem_of_cons. by right. }
  pose proof (metadata_getitem_id h chunks c) as Hc. simpl in Hc.
  rewrite Hc by (apply Hsub, elem_of_cons; by left).
  simpl.
  destruct (db_add_documents _ _ db) as [db'|e]; simpl; [|done].
  by destruct (db_persist db').
Qed.

Lemma is_new_spec h existing chunk id :
  metadata_get h chunk "id" = PyStr id →
  is_new h (list_to_set existing) chunk ↔ id ∉ existing.
Proof.
  intros Hid. unfold is_new, py_in. rewrite Hid.
  rewrite negb_True, bool_decide_spec.
  by rewrite elem_of_list_to_set.
Qed.

(** No chunk is new when every id of the batch is already stored. *)
Lemma no_new_chunks h chunks existing :
  (∀ id, PyStr id ∈ chunk_ids h chunks → id ∈ existing) →
  filter (λ chunk, is_new (calculate_chunk_ids h chunks).1
                     (list_to_set existing) chunk) chunks = [].
Proof.
  intros Hall.
  destruct (filter _ chunks) as [|c new] eqn:Hnew; [done|].
  exfalso.
  assert (c ∈ filter
    (λ chunk, is_new (calculate_chunk_ids h chunks).1
                (list_to_set existing) chunk) chunks) as Hc.
  { rewrite Hnew. apply elem_of_cons. by left. }
  apply list_elem_of_filter in Hc as [Hc Hin].
  destruct (chunk_id_is_string h chunks c Hin) as [id Hid].
  apply (is_new_spec _ existing _ id Hid) in Hc. apply Hc, Hall.
  rewrite <-Hid. unfold chunk_ids.
  by apply (list_elem_of_fmap_2
    (λ chunk, metadata_get (calculate_chunk_ids h chunks).1 chunk "id")).
Qed.
End add_to_chroma_facts.

(** The in-memory store keeps its promises. *)
Section memory_store_facts.
Implicit Types (m : gmap string (string * dict))
  (rs : list (pyval * (string * dict))).

Lemma foldl_upsert_dom rs m i :
  i ∈ dom (foldl upsert_record m rs) ↔ i ∈ dom m ∨ PyStr i ∈ rs.*1.
Proof.
  revert m. induction rs as [|[v d] rs IH]; intros m; simpl.
  - rewrite elem_of_nil. tauto.
  - rewrite IH, elem_of_cons. unfold upsert_record. simpl.
    destruct v as [| | |j];
      try (split; [tauto|intros [?|[?|?]]; [tauto|done|tauto]]).
    rewrite dom_insert_L, elem_of_union, elem_of_singleton.
    split.
    + intros [[->|?]|?]; tauto.
    + intros [?|[[= ->]|?]]; tauto.
Qed.

Lemma memory_store_laws : VectorStoreLaws (gmap string (string * dict)).
Proof.
  split.
  - intros docs ids m m' l l' Hadd Hget Hget'. simpl in *.
    case_decide as Hlen; [|done]. simplify_eq.
    split; intros i Hi; apply elem_of_elements, foldl_upsert_dom.
    + left. by apply elem_of_elements.
    + right. rewrite fst_zip by lia. done.
  - intros m m' Hp. simpl in *. by simplify_eq.
Qed.
End memory_store_facts.

(** C1. When every id of the batch is already in the store's id set the
    run only reads the ids and prints: no upsert, no persist, and the
    store it returns is the one it was given.  Hence a run that follows a
    successful run over a batch with the same ids adds nothing. *)
Theorem add_to_chroma_idempotent {Store : Type} `{!VectorStore Store} :
  (∀ (h : heap) (db : Store) (chunks : list Document)
     (existing : list string),
     db_get db = Ok existing →
     (∀ id, PyStr id ∈ chunk_ids h chunks → id ∈ existing) →
     add_to_chroma h db chunks =
     ((calculate_chunk_ids h chunks).1,
      ([EvGet;
        EvPrint ("Number of existing documents in DB: "
                 +:+ pretty (size (list_to_set existing : gset string)));
        EvPrint "No new documents to add"],
       Ok db)))
  ∧ (VectorStoreLaws Store →
     ∀ (h : heap) (db : Store) (chunks : list Document) h1 log1 db1,
       add_to_chroma h db chunks = (h1, (log1, Ok db1)) →
       ∀ (h' : heap) (chunks' : list Document) h2 log2 r2,
         chunk_ids h' chunks' = chunk_ids h chunks →
         add_to_chroma h' db1 chunks' = (h2, (log2, r2)) →
         upserted log2 = [] ∧ (EvPersist ∉ log2)
         ∧ (∀ db2, r2 = Ok db2 → db2 = db1)).
Proof.
  assert (∀ (h : heap) (db : Store) chunks existing,
     db_get db = Ok existing →
     (∀ id, PyStr id ∈ chunk_ids h chunks → id ∈ existing) →
     add_to_chroma h db chunks =
     ((calculate_chunk_ids h chunks).1,
      ([EvGet;
        EvPrint ("Number of existing documents in DB: "
                 +:+ pretty (size (list_to_set existing : gset string)));
        EvPrint "No new documents to add"],
       Ok db))) as Hnoop.
  { intros h db chunks existing Hget Hall.
    rewrite (add_to_chroma_unfold h db chunks existing Hget). simpl.
    pose proof (no_new_chunks h chunks existing Hall) as Hnone.
    simpl in Hnone. by rewrite Hnone. }
  split; [exact Hnoop|].
  intros Hlaws h db chunks h1 log1 db1 Hrun1 h' chunks' h2 log2 r2 Hids Hrun2.
  (* the second run either fails to read the ids, or finds them all *)
  destruct (db_get db1) as [existing1|e1] eqn:Hget1; last first.
  { unfold add_to_chroma in Hrun2. simpl in Hrun2. rewrite Hget1 in Hrun2.
    simpl in Hrun2. simplify_eq. split; [done|]. split; [|done].
    intros Hin. apply list_elem_of_singleton in Hin. done. }
  assert (∀ id, PyStr id ∈ chunk_ids h chunks → id ∈ existing1) as Hall.
  { destruct (db_get db) as [existing|e] eqn:Hget; last first.
    { unfold add_to_chroma in Hrun1. simpl in Hrun1. rewrite Hget in Hrun1.
      simpl in Hrun1. simplify_eq. }
    rewrite (add_to_chroma_unfold h db chunks existing Hget) in Hrun1.
    simpl in Hrun1.
    set (h0 := ls_heap (loop_run (loop_init h) chunks)) in *.
    set (new_chunks := filter _ chunks) in *.
    assert (∀ chunk id, chunk ∈ chunks →
              metadata_get h0 chunk "id" = PyStr id →
              id ∈ existing ∨ chunk ∈ new_chunks) as Hsplit.
    { intros chunk id Hin Hid.
      destruct (decide (id ∈ existing)) as [?|Hnew]; [by left|right].
      apply list_elem_of_filter. split; [|done].
      by apply (is_new_spec h0 existing chunk id Hid). }
    intros id Hid. unfold chunk_ids in Hid.
    apply list_elem_of_fmap in Hid as (chunk & Hid & Hin).
    symmetry in Hid. simpl in Hid. fold h0 in Hid.
    destruct new_chunks as [|c new] eqn:Hnew.
    - injection Hrun1 as _ _ <-.
      rewrite Hget in Hget1. injection Hget1 as <-.
      destruct (Hsplit chunk id Hin Hid) as [?|Hc]; [done|].
      by apply elem_of_nil in Hc.
    - destruct (db_add_documents _ _ db) as [db'|e] eqn:Hadd;
        [|simplify_eq].
      injection Hrun1 as _ _ Hpersist.
      pose proof (db_persist_get db' db1 Hpersist) as Hsame.
      rewrite Hget1 in Hsame. symmetry in Hsame.
      destruct (db_add_documents_get _ _ db db' existing existing1
                  Hadd Hget Hsame) as [Hold Hadded].
      destruct (Hsplit chunk id Hin Hid) as [?|Hc]; [by apply Hold|].
      apply Hadded. rewrite <-Hid.
      by apply (list_elem_of_fmap_2 (λ chunk, metadata_get h0 chunk "id")). }
  rewrite <-Hids in Hall.
  rewrite (Hnoop h' db1 chunks' existing1 Hget1 Hall) in Hrun2.
  simplify_eq. split; [done|]. split; [|by intros ? [=]].
  intros Hin. repeat (apply elem_of_cons in Hin as [Hin|Hin]; [done|]).
  by apply elem_of_nil in Hin.
Qed.

Lemma add_to_chroma_idempotent_witness :
  (add_to_chroma heap_aab (∅ : gmap string (string * dict)) chunks_aab).2.2
  = Ok store_aab
  ∧ add_to_chroma heap_aab store_aab chunks_aab
    = ((calculate_chunk_ids heap_aab chunks_aab).1,
       ([EvGet; EvPrint "Number of existing documents in DB: 3";
         EvPrint "No new documents to add"],
        Ok store_aab))
  ∧ upserted (add_to_chroma heap_aab store_aab chunks_aab).2.1 = [].
Proof.
  destruct (add_to_chroma_idempotent (Store := gmap string (string * dict)))
    as [Hnoop Hagain].
  split; [by_evaluation|]. split.
  - etrans.
    + apply (Hnoop heap_aab store_aab chunks_aab (elements (dom store_aab)));
        [exact eq_refl|].
      intros id Hid. apply (bool_decide_unpack _).
      assert (chunk_ids heap_aab chunks_aab
              = [PyStr "doc.pdf:0:0"; PyStr "doc.pdf:0:1"; PyStr "doc.pdf:1:0"])
        as Hids by by_evaluation.
      rewrite Hids in Hid.
      repeat (apply elem_of_cons in Hid as [Hid|Hid];
              [injection Hid as ->; by_evaluation|]).
      exfalso. exact (proj1 (elem_of_nil _) Hid).
    + by_evaluation.
  - refine (proj1 (Hagain memory_store_laws heap_aab ∅ chunks_aab
      (add_to_chroma heap_aab (∅ : gmap string (string * dict)) chunks_aab).1
      (add_to_chroma heap_aab (∅ : gmap string (string * dict)) chunks_aab).2.1
      store_aab _ heap_aab chunks_aab
      (add_to_chroma heap_aab store_aab chunks_aab).1
      (add_to_chroma heap_aab store_aab chunks_aab).2.1
      (add_to_chroma heap_aab store_aab chunks_aab).2.2 eq_refl _));
      by_evaluation.
Defined.

(** C2. Once the store has reported its ids, the run upserts exactly the
    chunks of the batch whose id is not among them, in batch order, each
    with its own id: it calls [add_documents] on the store with these
    documents and ids (and makes no such call when there is none), and
    the store it leaves is the one that call returned, persisted.  No
    submitted id is already stored, and every chunk with an absent id is
    submitted. *)
Theorem add_to_chroma_upserts_new_chunks {Store : Type} `{!VectorStore Store}
    (h : heap) (db : Store) (chunks : list Document)
    (existing : list string) :
  db_get db = Ok existing →
  let h1 := (calculate_chunk_ids h chunks).1 in
  let run := add_to_chroma h db chunks in
  let new_chunks :=
    filter (λ chunk, is_new h1 (list_to_set existing) chunk) chunks in
  let docs := snapshot h1 <$> new_chunks in
  let ids := (λ chunk, metadata_get h1 chunk "id") <$> new_chunks in
  run.1 = h1
  ∧ upserted run.2.1 = (if new_chunks is [] then [] else [(docs, ids)])
  ∧ run.2.2
    = (if new_chunks is [] then Ok db
       else db' ← db_add_documents docs ids db; db_persist db')
  ∧ (EvPersist ∈ run.2.1
     ↔ new_chunks ≠ [] ∧ ∃ db', db_add_documents docs ids db = Ok db')
  ∧ new_chunks `sublist_of` chunks
  ∧ (∀ chunk, chunk ∈ new_chunks →
       ∃ id, metadata_get h1 chunk "id" = PyStr id ∧ id ∉ existing)
  ∧ (∀ chunk id, chunk ∈ chunks →
       metadata_get h1 chunk "id" = PyStr id → id ∉ existing →
       chunk ∈ new_chunks).
Proof.
  intros Hget h1 run new_chunks docs ids. subst run.
  rewrite (add_to_chroma_unfold h db chunks existing Hget).
  fold h1. cbv zeta. fold new_chunks. fold docs. fold ids.
  split; [done|].
  assert (new_chunks `sublist_of` chunks) as Hsub by apply sublist_filter.
  assert (∀ chunk, chunk ∈ new_chunks →
            ∃ id, metadata_get h1 chunk "id" = PyStr id ∧ id ∉ existing)
    as Hfresh.
  { intros chunk Hin.
    apply list_elem_of_filter in Hin as [Hnew Hin].
    destruct (chunk_id_is_string h chunks chunk Hin) as [id Hid].
    exists id. split; [done|].
    by apply (is_new_spec h1 existing chunk id Hid). }
  assert (∀ chunk id, chunk ∈ chunks →
            metadata_get h1 chunk "id" = PyStr id → id ∉ existing →
            chunk ∈ new_chunks) as Hall.
  { intros chunk id Hin Hid Hnew.
    apply list_elem_of_filter. split; [|done].
    by apply (is_new_spec h1 existing chunk id Hid). }
  clearbody docs ids. clearbody new_chunks.
  destruct new_chunks as [|c new]; cbn [fst snd].
  { split; [done|]. split; [done|]. split; [|done].
    split; [|by intros [? _]].
    intros Hin. cbn in Hin.
    repeat (apply elem_of_cons in Hin as [Hin|Hin]; [done|]).
    by apply elem_of_nil in Hin. }
  destruct (db_add_documents docs ids db) as [db'|e]; cbn.
  - split; [done|]. split; [done|]. split; [|done].
    split; [intros _; split; [done|by exists db']|].
    intros _. do 4 (apply elem_of_cons; right). apply elem_of_cons. by left.
  - split; [done|]. split; [done|]. split; [|done].
    split; [|by intros [_ [? [=]]]].
    intros Hin.
    repeat (apply elem_of_cons in Hin as [Hin|Hin]; [done|]).
    by apply elem_of_nil in Hin.
Qed.

Lemma add_to_chroma_upserts_new_chunks_witness :
  upserted (add_to_chroma heap_aab
              (<["doc.pdf:0:1" := ("y", ∅)]> ∅ : gmap string (string * dict))
              chunks_aab).2.1
  = [([("x", <["id" := PyStr "doc.pdf:0:0"]> (mk_meta "doc.pdf" 0));
       ("z", <["id" := PyStr "doc.pdf:1:0"]> (mk_meta "doc.pdf" 1))],
      [PyStr "doc.pdf:0:0"; PyStr "doc.pdf:1:0"])]
  ∧ (add_to_chroma heap_aab
       (<["doc.pdf:0:1" := ("y", ∅)]> ∅ : gmap string (string * dict))
       chunks_aab).2.2
    = Ok (<["doc.pdf:0:0" :=
              ("x", <["id" := PyStr "doc.pdf:0:0"]> (mk_meta "doc.pdf" 0))]>
          (<["doc.pdf:1:0" :=
               ("z", <["id" := PyStr "doc.pdf:1:0"]> (mk_meta "doc.pdf" 1))]>
           (<["doc.pdf:0:1" := ("y", ∅)]> ∅))).
Proof.
  assert (db_get (<["doc.pdf:0:1" := ("y", ∅)]> ∅
                    : gmap string (string * dict))
          = Ok ["doc.pdf:0:1"]) as Hget by by_evaluation.
  destruct (add_to_chroma_upserts_new_chunks heap_aab _
              chunks_aab ["doc.pdf:0:1"] Hget) as (_ & Hup & Hstore & _).
  split.
  - etrans; [exact Hup|]. by_evaluation.
  - etrans; [exact Hstore|]. by_evaluation.
Defined.

(** ** Answering a query *)

(** The template has two slots; filling it puts the context and the
    question, as they are, between three fixed pieces of text. *)
Lemma PROMPT_TEMPLATE_format (context question : string) :
  ChatPromptTemplate_format PROMPT_TEMPLATE
    [("context", context); ("question", question)]
  = Ok ("Human: " +:+ newline
        +:+ "Answer the question based only on the following context:"
        +:+ newline +:+ newline
        +:+ context
        +:+ newline +:+ newline +:+ "---" +:+ newline +:+ newline
        +:+ "Answer the question based on the above context: "
        +:+ question +:+ newline).
Proof. reflexivity. Qed.

(** C9. Given the ranked results and the model's answer, the run joins
    the retrieved texts in ranked order with the separator, fills the
    two-slot template with that context and the query, hands the prompt
    to the model, and prints ["Response: <answer>"] and, on the next line,
    ["Sources: <list>"], the list holding in ranked order each chunk's
    id, or [None] for a chunk without one; it returns the answer. *)
Theorem query_rag_response {Store score : Type}
    (search : Store → string → nat → result (list (Document * score)))
    (invoke : string → result string)
    (h : heap) (db : Store) (query_text : string)
    (results : list (Document * score)) (response_text : string) :
  search db query_text 5 = Ok results →
  let context_text :=
    String.concat (newline +:+ newline +:+ "---" +:+ newline +:+ newline)
      ((λ r, page_content r.1) <$> results) in
  let prompt :=
    "Human: " +:+ newline
    +:+ "Answer the question based only on the following context:"
    +:+ newline +:+ newline
    +:+ context_text
    +:+ newline +:+ newline +:+ "---" +:+ newline +:+ newline
    +:+ "Answer the question based on the above context: "
    +:+ query_text +:+ newline in
  let sources :=
    (λ r, default PyNone (deref h (metadata r.1) !! "id")) <$> results in
  invoke prompt = Ok response_text →
  ChatPromptTemplate_format PROMPT_TEMPLATE
    [("context", context_text); ("question", query_text)] = Ok prompt
  ∧ query_rag search invoke h db query_text
    = ([EvSimilaritySearch query_text 5;
        EvInvoke prompt;
        EvPrint ("Response: " +:+ response_text +:+ newline
                 +:+ "Sources: " +:+ "["
                 +:+ String.concat ", " (py_repr <$> sources) +:+ "]")],
       Ok response_text).
Proof.
  intros Hsearch context_text prompt sources Hinvoke.
  split; [apply PROMPT_TEMPLATE_format|].
  unfold query_rag. rewrite Hsearch.
  assert ((λ '(doc, _), page_content doc) <$> results
          = (λ r, page_content r.1) <$> results) as Htexts.
  { apply list_fmap_ext. by intros i [doc s] _. }
  assert ((λ '(doc, _), metadata_get h doc "id") <$> results = sources)
    as Hsources.
  { apply list_fmap_ext. by intros i [doc s] _. }
  cbn [call mbind M_bind].
  rewrite Htexts, Hsources. unfold CONTEXT_SEPARATOR.
  fold context_text.
  rewrite PROMPT_TEMPLATE_format. fold prompt.
  cbn [lift call mbind M_bind]. rewrite Hinvoke. done.
Qed.

Lemma query_rag_response_witness :
  query_rag (score := nat)
    (λ _ _ _, Ok [(mkDocument "x" 1%positive, 0);
                  (mkDocument "w" 9%positive, 1)])
    (λ _, Ok "A rose.")
    (calculate_chunk_ids heap_aab chunks_aab).1 tt "What did he love?"
  = ([EvSimilaritySearch "What did he love?" 5;
      EvInvoke "Human: 
Answer the question based only on the following context:

x

---

w

---

Answer the question based on the above context: What did he love?
";
      EvPrint "Response: A rose.
Sources: ['doc.pdf:0:0', None]"],
     Ok "A rose.").
Proof.
  refine (eq_trans (proj2 (query_rag_response (score := nat)
    (λ _ _ _, Ok [(mkDocument "x" 1%positive, 0);
                  (mkDocument "w" 9%positive, 1)])
    (λ _, Ok "A rose.")
    (calculate_chunk_ids heap_aab chunks_aab).1 tt "What did he love?"
    _ "A rose." eq_refl eq_refl)) _).
  by vm_compute.
Defined.

(** ** Scenarios *)

(** Ingesting a two-page document into an empty store files it under
    [doc.pdf:0:0] and [doc.pdf:1:0]; ingesting it again finds two stored
    documents and adds none. *)
Lemma two_page_document_ingested_once :
  (add_to_chroma heap_two_pages (∅ : gmap string (string * dict))
     chunks_two_pages).2.2 = Ok store_two_pages
  ∧ dom store_two_pages = {["doc.pdf:0:0"; "doc.pdf:1:0"]}
  ∧ (add_to_chroma heap_two_pages store_two_pages chunks_two_pages).2
    = ([EvGet; EvPrint "Number of existing documents in DB: 2";
        EvPrint "No new documents to add"],
       Ok store_two_pages).
Proof. split; [|split]; by_evaluation. Qed.

(** When a list names the same chunk object twice, the object keeps the
    id of its last position; this is why statements about the ids found
    at the end ask for distinct objects. *)
Lemma shared_chunk_keeps_last_id :
  chunk_ids heap_shared chunks_shared
  = [PyStr "doc.pdf:0:1"; PyStr "doc.pdf:0:1"].
Proof. by_evaluation. Qed.

(** * Further properties *)

(** ** Tagging a batch again *)

Section retagging.
Implicit Types (h : heap) (c : Document) (cs pre suf : list Document)
  (l : loc).

(** Every reference of a batch has a last entry that holds it. *)
Lemma last_entry_of_reference cs l :
  l ∈ metadata <$> cs →
  ∃ pre c suf, cs = pre ++ c :: suf ∧ metadata c = l
               ∧ l ∉ metadata <$> suf.
Proof.
  induction cs as [|c cs IH]; intros Hin.
  { by apply elem_of_nil in Hin. }
  destruct (decide (l ∈ metadata <$> cs)) as [Hlater|Hnot].
  - destruct (IH Hlater) as (pre & c' & suf & -> & Hc' & Hsuf).
    by exists (c :: pre), c', suf.
  - rewrite fmap_cons in Hin. apply elem_of_cons in Hin as [->|?]; [|done].
    by exists [], c, cs.
Qed.

(** The dictionary behind a reference at the end of the pass: the old one
    with the id of the last entry that holds the reference. *)
Lemma dictionary_at_end h pre c suf :
  metadata c ∉ metadata <$> suf →
  (calculate_chunk_ids h (pre ++ c :: suf)).1 !! metadata c
  = Some (<["id" := PyStr (chunk_id_of (page_key h c)
                             (sequence_index (page_key h <$> pre)
                                (page_key h c)))]>
            (deref h (metadata c))).
Proof.
  intros Hsuf. unfold calculate_chunk_ids. cbn [fst].
  rewrite (cons_middle c pre suf), app_assoc, loop_run_app.
  rewrite loop_run_heap_other by done.
  rewrite loop_run_snoc, loop_body_after_prefix. cbn [ls_heap].
  unfold metadata_setitem. rewrite lookup_insert_eq. f_equal.
  apply map_eq. intros key.
  destruct (decide (key = "id")) as [->|Hkey].
  - by rewrite !lookup_insert_eq.
  - rewrite !lookup_insert_ne by done. by apply loop_run_heap_key.
Qed.
End retagging.

(** X1. Tagging is idempotent: a second pass over an already tagged batch
    leaves the heap exactly as the first pass left it, whatever ids the
    chunks held before and whether or not some of them share a
    dictionary. *)
Theorem calculate_chunk_ids_idempotent (h : heap) (chunks : list Document) :
  calculate_chunk_ids (calculate_chunk_ids h chunks).1 chunks
  = calculate_chunk_ids h chunks.
Proof.
  set (h1 := (calculate_chunk_ids h chunks).1).
  assert ((calculate_chunk_ids h1 chunks).1 = h1) as Hheap; last first.
  { unfold calculate_chunk_ids in *. cbn [fst] in *. by rewrite Hheap. }
  apply map_eq. intros l.
  destruct (decide (l ∈ metadata <$> chunks)) as [Hin|Hnot]; last first.
  { unfold calculate_chunk_ids. cbn [fst]. by apply loop_run_heap_other. }
  destruct (last_entry_of_reference chunks l Hin)
    as (pre & c & suf & Hsplit & <- & Hsuf).
  assert (h1 !! metadata c
          = Some (<["id" := PyStr (chunk_id_of (page_key h c)
                     (sequence_index (page_key h <$> pre) (page_key h c)))]>
                    (deref h (metadata c)))) as Hfirst.
  { subst h1. rewrite Hsplit. by apply dictionary_at_end. }
  assert (∀ chunk, page_key h1 chunk = page_key h chunk) as Hkeys.
  { intros chunk. apply page_key_loop_run. }
  rewrite Hsplit at 1. rewrite dictionary_at_end by done.
  rewrite Hkeys, (list_fmap_ext (page_key h1) (page_key h) pre) by done.
  rewrite Hfirst. f_equal.
  unfold deref at 1. rewrite Hfirst. simpl.
  by rewrite insert_insert_eq.
Qed.

(** ** When ids collide *)

Section collisions.
Implicit Types (key k x y : string) (keys l : list string) (i j : nat).

(** A chunk that starts a run gets index 0. *)
Lemma run_start_id keys i k :
  keys !! i = Some k →
  (∀ i', i = S i' → keys !! i' ≠ Some k) →
  assigned_ids keys !! i = Some (chunk_id_of k 0).
Proof.
  intros Hi Hprev. rewrite (assigned_ids_lookup _ _ _ Hi).
  do 2 f_equal. unfold sequence_index.
  destruct i as [|i']; [done|].
  assert (is_Some (keys !! i')) as [y Hy].
  { apply lookup_lt_is_Some. apply lookup_lt_Some in Hi. lia. }
  rewrite (take_S_r _ _ _ Hy), reverse_snoc. simpl.
  rewrite decide_False; [done|].
  intros ->. by apply (Hprev i').
Qed.

Lemma interruption_then_key x y l :
  y ≠ x → x ∈ l →
  ∃ j z, (y :: l) !! j = Some z ∧ z ≠ x ∧ (y :: l) !! S j = Some x.
Proof.
  revert y. induction l as [|z l IH]; intros y Hy Hin.
  { by apply elem_of_nil in Hin. }
  destruct (decide (z = x)) as [->|Hz].
  - by exists 0, y.
  - apply elem_of_cons in Hin as [?|Hin]; [congruence|].
    destruct (IH z Hz Hin) as (j & w & Hj & Hw & HSj).
    by exists (S j), w.
Qed.

(** A key found after its leading run comes right after another key. *)
Lemma drop_run_reappears x l :
  x ∈ drop_run x l →
  ∃ j z, l !! j = Some z ∧ z ≠ x ∧ l !! S j = Some x.
Proof.
  induction l as [|y l IH]; simpl; intros Hin.
  { by apply elem_of_nil in Hin. }
  case_decide as Hy.
  - destruct (IH Hin) as (j & z & Hj & Hz & HSj). by exists (S j), z.
  - apply elem_of_cons in Hin as [?|Hin]; [congruence|].
    by apply interruption_then_key.
Qed.

(** Page keys that are not grouped have a key with two run starts. *)
Lemma not_grouped_two_starts keys :
  page_grouped keys = false →
  ∃ i j k, i < j
    ∧ keys !! i = Some k ∧ (∀ i', i = S i' → keys !! i' ≠ Some k)
    ∧ keys !! j = Some k ∧ (∀ j', j = S j' → keys !! j' ≠ Some k).
Proof.
  induction keys as [|x rest IH]; [done|].
  simpl. intros [Hx|Hrest]%andb_false_iff.
  - apply bool_decide_eq_false in Hx.
    destruct (decide (x ∈ drop_run x rest)) as [Hin|?]; [|done].
    destruct (drop_run_reappears x rest Hin) as (j & z & Hj & Hz & HSj).
    exists 0, (S (S j)), x. split; [lia|]. split; [done|].
    split; [by intros ? [=]|]. split; [done|].
    intros j' [= <-]. simpl. rewrite Hj. congruence.
  - destruct (IH Hrest) as (i & j & k & Hij & Hi & Hpi & Hj & Hpj).
    assert (∀ j', S j = S j' → (x :: rest) !! j' ≠ Some k) as Hpj'.
    { intros j' [= <-]. destruct j as [|j0]; [lia|]. simpl. by apply Hpj. }
    destruct i as [|i0].
    + destruct (decide (x = k)) as [->|Hxk].
      * exists 0, (S j), k. split; [lia|]. split; [done|].
        split; [by intros ? [=]|]. done.
      * exists 1, (S j), k. split; [lia|]. split; [done|].
        split; [|done]. intros i' [= <-]. simpl. congruence.
    + exists (S (S i0)), (S j), k. split; [lia|]. split; [done|].
      split; [|done]. intros i' [= <-]. simpl. by apply Hpi.
Qed.

Lemma pretty_N_no_colon (n : N) : string_mem ":" (pretty n) = false.
Proof.
  unfold pretty, pretty_N.
  case_decide; [done|]. by apply pretty_N_go_no_colon.
Qed.

(** The decimal numeral of an integer holds no colon. *)
Lemma pretty_Z_no_colon (z : Z) : string_mem ":" (pretty z) = false.
Proof.
  destruct z as [|p|p]; unfold pretty, pretty_Z; [done|..].
  - apply pretty_N_no_colon.
  - change ("-" +:+ pretty p) with (String "-" (pretty p)). simpl.
    apply pretty_N_no_colon.
Qed.
End collisions.

(** The assigned ids are pairwise distinct exactly for grouped keys. *)
Lemma assigned_ids_NoDup_iff (keys : list string) :
  NoDup (assigned_ids keys) ↔ page_grouped keys = true.
Proof.
  split; [|apply assigned_ids_NoDup].
  intros Hnd. destruct (page_grouped keys) eqn:Hg; [done|].
  exfalso.
  destruct (not_grouped_two_starts _ Hg)
    as (i & j & k & Hij & Hi & Hpi & Hj & Hpj).
  pose proof (run_start_id _ _ _ Hi Hpi) as Hidi.
  pose proof (run_start_id _ _ _ Hj Hpj) as Hidj.
  pose proof (proj1 (NoDup_alt _) Hnd i j _ Hidi Hidj). lia.
Qed.

(** X2. In a batch of distinct chunk objects the ids are pairwise
    distinct exactly when the page keys are grouped: as soon as a page
    comes back after another page, two chunks get the same id. *)
Theorem chunk_ids_distinct_iff_grouped (h : heap) (chunks : list Document) :
  NoDup (metadata <$> chunks) →
  NoDup (chunk_ids h chunks)
  ↔ page_grouped (page_key h <$> chunks) = true.
Proof.
  intros Hrefs. rewrite chunk_ids_no_alias by done.
  rewrite <-assigned_ids_NoDup_iff.
  split; [apply NoDup_fmap_1|apply NoDup_fmap_2; by intros ?? [=]].
Qed.

Lemma chunk_ids_distinct_iff_grouped_witness :
  NoDup (chunk_ids heap_aab chunks_aab)
  ∧ page_grouped (page_key heap_aba <$> chunks_aba) = false.
Proof.
  split.
  - apply chunk_ids_distinct_iff_grouped.
    + apply (bool_decide_unpack _). by_evaluation.
    + by_evaluation.
  - destruct (page_grouped (page_key heap_aba <$> chunks_aba)) eqn:Hg;
      [|done].
    exfalso.
    apply (chunk_ids_distinct_iff_grouped heap_aba chunks_aba) in Hg.
    + revert Hg. apply (bool_decide_unpack _). by_evaluation.
    + apply (bool_decide_unpack _). by_evaluation.
Defined.

(** X3. With string sources and integer page numbers the id scheme is
    unambiguous: two chunks of a batch of distinct objects end up with
    the same id only if they have the same source, the same page and the
    same position inside their run. *)
Theorem chunk_id_determines_source_page_index
    (h : heap) (chunks : list Document) (i j : nat) (ci cj : Document)
    (source_i source_j : string) (page_i page_j : Z) :
  NoDup (metadata <$> chunks) →
  chunks !! i = Some ci → chunks !! j = Some cj →
  metadata_get h ci "source" = PyStr source_i →
  metadata_get h ci "page" = PyInt page_i →
  metadata_get h cj "source" = PyStr source_j →
  metadata_get h cj "page" = PyInt page_j →
  chunk_ids h chunks !! i = chunk_ids h chunks !! j →
  source_i = source_j ∧ page_i = page_j
  ∧ sequence_index (page_key h <$> take i chunks) (page_key h ci)
    = sequence_index (page_key h <$> take j chunks) (page_key h cj).
Proof.
  intros Hrefs Hi Hj Hsi Hpi Hsj Hpj Hids.
  rewrite chunk_ids_no_alias in Hids by done.
  rewrite !list_lookup_fmap in Hids.
  rewrite (assigned_ids_lookup _ i (page_key h ci)) in Hids
    by by rewrite list_lookup_fmap, Hi.
  rewrite (assigned_ids_lookup _ j (page_key h cj)) in Hids
    by by rewrite list_lookup_fmap, Hj.
  injection Hids as Hids.
  apply chunk_id_of_inj in Hids as [Hkey Hidx].
  rewrite <-!fmap_take in Hidx.
  assert (source_i = source_j ∧ page_i = page_j) as [-> ->]; [|done].
  unfold page_key in Hkey. rewrite Hsi, Hpi, Hsj, Hpj in Hkey. simpl in Hkey.
  apply append_colon_inj in Hkey as [-> Hpage];
    [|apply pretty_Z_no_colon..].
  split; [done|]. by apply (inj pretty).
Qed.

Lemma chunk_id_determines_source_page_index_witness :
  chunk_ids heap_aba chunks_aba !! 0 = chunk_ids heap_aba chunks_aba !! 2
  ∧ sequence_index (page_key heap_aba <$> take 0 chunks_aba) "a.pdf:0"
    = sequence_index (page_key heap_aba <$> take 2 chunks_aba) "a.pdf:0".
Proof.
  assert (chunk_ids heap_aba chunks_aba !! 0
          = chunk_ids heap_aba chunks_aba !! 2) as Hsame by by_evaluation.
  split; [exact Hsame|].
  refine (proj2 (proj2 (chunk_id_determines_source_page_index
    heap_aba chunks_aba 0 2 (mkDocument "x" 1%positive)
    (mkDocument "z" 3%positive) "a.pdf" "a.pdf" 0 0
    _ eq_refl eq_refl _ _ _ _ Hsame))).
  - apply (bool_decide_unpack _). by_evaluation.
  - by_evaluation.
  - by_evaluation.
  - by_evaluation.
  - by_evaluation.
Defined.

(** X4. Missing metadata does not make the pass fail: a field that is
    absent reads as [None], so the chunks of a batch (of distinct
    objects) that has neither sources nor pages are numbered as one page,
    [None:None:0], [None:None:1], and so on. *)
Theorem chunk_ids_without_source_or_page
    (h : heap) (chunks : list Document) :
  NoDup (metadata <$> chunks) →
  (∀ chunk, chunk ∈ chunks →
     deref h (metadata chunk) !! "source" = None
     ∧ deref h (metadata chunk) !! "page" = None) →
  chunk_ids h chunks
  = (λ i, PyStr ("None:None:" +:+ pretty i)) <$> seq 0 (length chunks).
Proof.
  intros Hrefs Hbare.
  assert (Forall (λ chunk, page_key h chunk = "None:None") chunks) as Hkeys.
  { apply Forall_forall. intros chunk Hin.
    destruct (Hbare chunk Hin) as [Hs Hp].
    unfold page_key, metadata_get. by rewrite Hs, Hp. }
  rewrite chunk_ids_no_alias by done.
  apply list_eq. intros i. rewrite !list_lookup_fmap.
  destruct (chunks !! i) as [chunk|] eqn:Hi.
  - assert (i < length chunks) as Hlt by by eapply lookup_lt_Some.
    rewrite (assigned_ids_lookup _ i (page_key h chunk))
      by by rewrite list_lookup_fmap, Hi.
    rewrite lookup_seq_lt by done. simpl. do 2 f_equal.
    rewrite (proj1 (Forall_lookup _ _) Hkeys i chunk Hi).
    rewrite <-fmap_take.
    pose proof (sequence_index_in_run h [] chunks i "None:None" Hkeys
                  (not_elem_of_nil _)) as Hidx.
    cbn [app] in Hidx. rewrite Hidx.
    rewrite length_take_le by lia. reflexivity.
  - assert (length chunks ≤ i) as Hge by by apply lookup_ge_None.
    rewrite lookup_seq_ge by done.
    assert (assigned_ids (page_key h <$> chunks) !! i = None) as ->; [|done].
    apply lookup_ge_None. by rewrite assigned_ids_length, length_fmap.
Qed.

Lemma chunk_ids_without_source_or_page_witness :
  chunk_ids heap_bare chunks_bare
  = [PyStr "None:None:0"; PyStr "None:None:1"].
Proof.
  etrans.
  - apply chunk_ids_without_source_or_page.
    + apply (bool_decide_unpack _). by_evaluation.
    + intros chunk Hin.
      repeat (apply elem_of_cons in Hin as [->|Hin];
              [split; by_evaluation|]).
      exfalso. exact (proj1 (elem_of_nil _) Hin).
  - by_evaluation.
Defined.

(** ** The calls [add_to_chroma] makes *)

Section add_to_chroma_calls.
Context {Store : Type} `{!VectorStore Store}.
Implicit Types (h : heap) (db : Store) (chunks : list Document)
  (existing : list string).

(** When the id query fails, the run stops there. *)
Lemma add_to_chroma_get_fails h db chunks e :
  db_get db = Raise e →
  add_to_chroma h db chunks
  = ((calculate_chunk_ids h chunks).1, ([EvGet], Raise e)).
Proof.
  intros Hget. unfold add_to_chroma. simpl. by rewrite Hget.
Qed.


(** What a submitted chunk looks like to the store. *)
Lemma snapshot_id h chunks chunk :
  chunk ∈ chunks →
  let h1 := (calculate_chunk_ids h chunks).1 in
  ∃ id, metadata_get h1 chunk "id" = PyStr id
        ∧ (snapshot h1 chunk).2 !! "id" = Some (PyStr id).
Proof.
  intros Hin.
  destruct (loop_run_id_present (loop_init h) chunks chunk Hin)
    as (id & d & Hd & Hid).
  exists id. unfold snapshot, metadata_get, deref, calculate_chunk_ids.
  cbn [fst snd]. rewrite Hd. simpl. by rewrite Hid.
Qed.

(** An empty store knows no id, so every chunk is new. *)
Lemma all_new_for_empty_store h chunks :
  filter (λ chunk, is_new h (list_to_set []) chunk) chunks = chunks.
Proof.
  induction chunks as [|c cs IH]; [done|].
  rewrite filter_cons_True, IH; [done|].
  unfold is_new, py_in. by destruct (metadata_get h c "id").
Qed.
End add_to_chroma_calls.




(** X6. The store calls of a run follow one protocol: the id query comes
    first; [add_documents] is called at most once and never with an empty
    list, and the log announces the number of documents it is given;
    [persist] is called exactly when that upsert returned. *)
Theorem add_to_chroma_call_protocol {Store : Type} `{!VectorStore Store}
    (h : heap) (db : Store) (chunks : list Document) :
  let log := (add_to_chroma h db chunks).2.1 in
  head log = Some EvGet
  ∧ length (upserted log) ≤ 1
  ∧ (∀ docs ids, (docs, ids) ∈ upserted log →
       docs ≠ []
       ∧ EvPrint ("Adding new documents: " +:+ pretty (length docs)) ∈ log)
  ∧ (EvPersist ∈ log
     ↔ ∃ docs ids db', (docs, ids) ∈ upserted log
                       ∧ db_add_documents docs ids db = Ok db').
Proof.
  destruct (db_get db) as [existing|e0] eqn:Hget; last first.
  { rewrite (add_to_chroma_get_fails h db chunks e0 Hget). cbn.
    split; [done|]. split; [lia|]. split.
    - intros docs ids Hin. by apply elem_of_nil in Hin.
    - split.
      + intros Hin. apply list_elem_of_singleton in Hin. done.
      + intros (docs & ids & db' & Hin & _). by apply elem_of_nil in Hin. }
  rewrite (add_to_chroma_unfold h db chunks existing Hget). cbv zeta.
  set (h0 := (calculate_chunk_ids h chunks).1).
  set (new_chunks := filter _ chunks).
  destruct new_chunks as [|c new].
  { cbn. split; [done|]. split; [lia|]. split.
    - intros docs ids Hin. by apply elem_of_nil in Hin.
    - split.
      + intros Hin.
        repeat (apply elem_of_cons in Hin as [Hin|Hin]; [done|]).
        by apply elem_of_nil in Hin.
      + intros (docs & ids & db' & Hin & _). by apply elem_of_nil in Hin. }
  set (docs := snapshot h0 <$> c :: new).
  set (ids := (λ chunk, metadata_get h0 chunk "id") <$> c :: new).
  assert (length docs = S (length new)) as Hlen.
  { unfold docs. by rewrite length_fmap. }
  assert (docs ≠ []) as Hne.
  { intros Hnil. by rewrite Hnil in Hlen. }
  clearbody docs ids.
  destruct (db_add_documents docs ids db) as [db'|e1] eqn:Hadd; cbn.
  - split; [done|]. split; [lia|]. split.
    + intros docs' ids' Hin. apply list_elem_of_singleton in Hin.
      injection Hin as -> ->. split; [done|].
      * rewrite Hlen. do 2 (apply elem_of_cons; right).
        apply elem_of_cons. by left.
    + split.
      * intros _. exists docs, ids, db'. split; [|done].
        by apply list_elem_of_singleton.
      * intros _. do 4 (apply elem_of_cons; right).
        apply elem_of_cons. by left.
  - split; [done|]. split; [lia|]. split.
    + intros docs' ids' Hin. apply list_elem_of_singleton in Hin.
      injection Hin as -> ->. split; [done|].
      * rewrite Hlen. do 2 (apply elem_of_cons; right).
        apply elem_of_cons. by left.
    + split.
      * intros Hin.
        repeat (apply elem_of_cons in Hin as [Hin|Hin]; [done|]).
        by apply elem_of_nil in Hin.
      * intros (docs' & ids' & db' & Hin & Hok).
        apply list_elem_of_singleton in Hin. injection Hin as -> ->.
        congruence.
Qed.

(** X7. Every document handed to [add_documents] carries, under ["id"] in
    its metadata, the very id it is filed under: the two lists have the
    same length, and position by position the id is a string equal to
    the document's ["id"]. *)
Theorem submitted_documents_carry_their_ids
    {Store : Type} `{!VectorStore Store}
    (h : heap) (db : Store) (chunks : list Document)
    (docs : list (string * dict)) (ids : list pyval) :
  (docs, ids) ∈ upserted (add_to_chroma h db chunks).2.1 →
  length ids = length docs
  ∧ ∀ i text d, docs !! i = Some (text, d) →
      ∃ id, ids !! i = Some (PyStr id) ∧ d !! "id" = Some (PyStr id).
Proof.
  destruct (db_get db) as [existing|e0] eqn:Hget; last first.
  { rewrite (add_to_chroma_get_fails h db chunks e0 Hget). cbn.
    intros Hin. by apply elem_of_nil in Hin. }
  rewrite (add_to_chroma_unfold h db chunks existing Hget). cbv zeta.
  set (h0 := (calculate_chunk_ids h chunks).1).
  set (new_chunks := filter _ chunks).
  assert (∀ chunk, chunk ∈ new_chunks → chunk ∈ chunks) as Hsub.
  { intros chunk Hin. by apply list_elem_of_filter in Hin as [_ ?]. }
  clearbody new_chunks.
  assert (length ((λ chunk, metadata_get h0 chunk "id") <$> new_chunks)
          = length (snapshot h0 <$> new_chunks)
          ∧ ∀ i text d, (snapshot h0 <$> new_chunks) !! i = Some (text, d) →
              ∃ id, ((λ chunk, metadata_get h0 chunk "id") <$> new_chunks) !! i
                    = Some (PyStr id)
                    ∧ d !! "id" = Some (PyStr id)) as Hall.
  { split; [by rewrite !length_fmap|].
    intros i text d. rewrite !list_lookup_fmap.
    destruct (new_chunks !! i) as [chunk|] eqn:Hi; [|done].
    intros [= <- <-].
    destruct (snapshot_id h chunks chunk) as (id & Hid & Hd).
    { by eapply Hsub, list_elem_of_lookup_2. }
    exists id. split; [|done]. simpl. f_equal. exact Hid. }
  destruct new_chunks as [|c new].
  { cbn. intros Hin. by apply elem_of_nil in Hin. }
  destruct (db_add_documents _ _ db) as [db'|e1]; cbn;
    intros Hin; apply list_elem_of_singleton in Hin;
    injection Hin as -> ->; exact Hall.
Qed.

Lemma submitted_documents_carry_their_ids_witness :
  ∃ id, [PyStr "doc.pdf:0:0"; PyStr "doc.pdf:0:1"; PyStr "doc.pdf:1:0"] !! 1
        = Some (PyStr id)
        ∧ <["id" := PyStr "doc.pdf:0:1"]> (mk_meta "doc.pdf" 0) !! "id"
          = Some (PyStr id).
Proof.
  refine (proj2 (submitted_documents_carry_their_ids
    heap_aab (∅ : gmap string (string * dict)) chunks_aab
    [("x", <["id" := PyStr "doc.pdf:0:0"]> (mk_meta "doc.pdf" 0));
     ("y", <["id" := PyStr "doc.pdf:0:1"]> (mk_meta "doc.pdf" 0));
     ("z", <["id" := PyStr "doc.pdf:1:0"]> (mk_meta "doc.pdf" 1))]
    [PyStr "doc.pdf:0:0"; PyStr "doc.pdf:0:1"; PyStr "doc.pdf:1:0"] _)
    1 "y" _ eq_refl).
  apply (bool_decide_unpack _). by_evaluation.
Defined.

(** X8. After a run that returns, a store that keeps its promises holds
    every id of the batch, and every id it held before. *)
Theorem add_to_chroma_stores_batch
    {Store : Type} `{!VectorStore Store} `{!VectorStoreLaws Store}
    (h : heap) (db db1 : Store) (chunks : list Document)
    (h1 : heap) (log : list event) (existing stored : list string) :
  add_to_chroma h db chunks = (h1, (log, Ok db1)) →
  db_get db = Ok existing →
  db_get db1 = Ok stored →
  (∀ id, id ∈ existing → id ∈ stored)
  ∧ (∀ id, PyStr id ∈ chunk_ids h chunks → id ∈ stored).
Proof.
  intros Hrun Hget Hget1.
  rewrite (add_to_chroma_unfold h db chunks existing Hget) in Hrun.
  cbv zeta in Hrun.
  set (h0 := (calculate_chunk_ids h chunks).1) in *.
  set (new_chunks := filter _ chunks) in *.
  assert (∀ chunk id, chunk ∈ chunks →
            metadata_get h0 chunk "id" = PyStr id →
            id ∈ existing ∨ chunk ∈ new_chunks) as Hsplit.
  { intros chunk id Hin Hid.
    destruct (decide (id ∈ existing)) as [?|Hnew]; [by left|right].
    apply list_elem_of_filter. split; [|done].
    by apply (is_new_spec h0 existing chunk id Hid). }
  assert ((∀ id, id ∈ existing → id ∈ stored)
          ∧ (∀ chunk, chunk ∈ new_chunks →
               ∀ id, metadata_get h0 chunk "id" = PyStr id → id ∈ stored))
    as [Hold Hnew].
  { destruct new_chunks as [|c new] eqn:Hnew.
    - injection Hrun as _ _ <-. rewrite Hget in Hget1.
      injection Hget1 as <-. split; [done|].
      intros chunk Hin. by apply elem_of_nil in Hin.
    - destruct (db_add_documents _ _ db) as [db'|e] eqn:Hadd;
        [|simplify_eq].
      injection Hrun as _ _ Hpersist.
      pose proof (db_persist_get db' db1 Hpersist) as Hsame.
      rewrite Hget1 in Hsame. symmetry in Hsame.
      destruct (db_add_documents_get _ _ db db' existing stored
                  Hadd Hget Hsame) as [Hold Hadded].
      split; [done|].
      intros chunk Hin id Hid. apply Hadded. rewrite <-Hid.
      by apply (list_elem_of_fmap_2 (λ chunk, metadata_get h0 chunk "id")). }
  split; [done|].
  intros id Hid. unfold chunk_ids in Hid.
  apply list_elem_of_fmap in Hid as (chunk & Hid & Hin).
  symmetry in Hid. fold h0 in Hid.
  destruct (Hsplit chunk id Hin Hid) as [?|Hc]; [by apply Hold|].
  by apply (Hnew chunk Hc).
Qed.

Lemma add_to_chroma_stores_batch_witness :
  "doc.pdf:0:1" ∈ elements (dom store_aab).
Proof.
  refine (proj2 (add_to_chroma_stores_batch
    (VectorStoreLaws0 := memory_store_laws)
    heap_aab ∅ store_aab chunks_aab
    (add_to_chroma heap_aab (∅ : gmap string (string * dict)) chunks_aab).1
    (add_to_chroma heap_aab (∅ : gmap string (string * dict)) chunks_aab).2.1
    [] (elements (dom store_aab)) _ _ _) "doc.pdf:0:1" _).
  - by_evaluation.
  - by_evaluation.
  - exact eq_refl.
  - apply (bool_decide_unpack _). by_evaluation.
Defined.

(** X9. Deduplication is against the store only.  For a batch of distinct
    chunk objects, the ids handed to [add_documents] are pairwise
    distinct when the page keys are grouped; against an empty store they
    are pairwise distinct only then, so an interrupted page makes the run
    submit the same id twice. *)
Theorem submitted_ids_distinct_when_grouped
    {Store : Type} `{!VectorStore Store}
    (h : heap) (db : Store) (chunks : list Document)
    (existing : list string)
    (docs : list (string * dict)) (ids : list pyval) :
  NoDup (metadata <$> chunks) →
  db_get db = Ok existing →
  (docs, ids) ∈ upserted (add_to_chroma h db chunks).2.1 →
  (page_grouped (page_key h <$> chunks) = true → NoDup ids)
  ∧ (existing = [] →
     (NoDup ids ↔ page_grouped (page_key h <$> chunks) = true)).
Proof.
  intros Hrefs Hget.
  rewrite (add_to_chroma_unfold h db chunks existing Hget). cbv zeta.
  set (h0 := (calculate_chunk_ids h chunks).1).
  intros Hin.
  assert (ids = (λ chunk, metadata_get h0 chunk "id")
                  <$> filter (λ chunk, is_new h0 (list_to_set existing) chunk)
                        chunks) as ->.
  { revert Hin. set (new_chunks := filter _ chunks).
    destruct new_chunks as [|c new].
    - cbn. intros Hin. by apply elem_of_nil in Hin.
    - destruct (db_add_documents _ _ db) as [db'|e1]; cbn;
        intros Hin; apply list_elem_of_singleton in Hin;
        by injection Hin as -> ->. }
  pose proof (chunk_ids_no_alias h chunks Hrefs) as Hids.
  unfold chunk_ids in Hids. fold h0 in Hids.
  split.
  - intros Hg. eapply sublist_NoDup; last first.
    { apply fmap_sublist, sublist_filter. }
    rewrite Hids. apply NoDup_fmap_2; [by intros ?? [=]|].
    by apply assigned_ids_NoDup_iff.
  - intros ->. rewrite all_new_for_empty_store, Hids.
    rewrite <-assigned_ids_NoDup_iff.
    split; [apply NoDup_fmap_1|apply NoDup_fmap_2; by intros ?? [=]].
Qed.

Lemma submitted_ids_distinct_when_grouped_witness :
  ¬ NoDup [PyStr "a.pdf:0:0"; PyStr "b.pdf:0:0"; PyStr "a.pdf:0:0"]
  ∧ page_grouped (page_key heap_aba <$> chunks_aba) = false.
Proof.
  assert (¬ NoDup [PyStr "a.pdf:0:0"; PyStr "b.pdf:0:0"; PyStr "a.pdf:0:0"])
    as Hdup.
  { apply (bool_decide_unpack _). by_evaluation. }
  split; [exact Hdup|].
  destruct (page_grouped (page_key heap_aba <$> chunks_aba)) eqn:Hg; [|done].
  exfalso. apply Hdup.
  refine (proj1 (submitted_ids_distinct_when_grouped
    heap_aba (∅ : gmap string (string * dict)) chunks_aba []
    [("x", <["id" := PyStr "a.pdf:0:0"]> (mk_meta "a.pdf" 0));
     ("y", <["id" := PyStr "b.pdf:0:0"]> (mk_meta "b.pdf" 0));
     ("z", <["id" := PyStr "a.pdf:0:0"]> (mk_meta "a.pdf" 0))]
    [PyStr "a.pdf:0:0"; PyStr "b.pdf:0:0"; PyStr "a.pdf:0:0"] _ _ _) Hg).
  - apply (bool_decide_unpack _). by_evaluation.
  - by_evaluation.
  - apply (bool_decide_unpack _). by_evaluation.
Defined.

(** ** Paths that are not directories, and clearing the store *)

Lemma load_documents_from_regular_file_witness :
  load_documents_from_directory pdf_directory_loader fs_books_file "books"
  = Raise (NotADirectoryError "books").
Proof.
  apply (load_documents_from_regular_file pdf_directory_loader
           fs_books_file "books" []).
  by_evaluation.
Defined.

(** The reference [rmtree] leaves nothing at the path it removed. *)
Lemma remove_tree_gone (fs fs' : filesystem) (path : string) :
  remove_tree fs path = (fs', Ok tt) → fs' !! path = None.
Proof.
  unfold remove_tree.
  destruct (fs !! path) as [[pages|entries]|]; intros [= <-].
  apply map_lookup_filter_None. right. intros node _ Hout.
  apply Hout. unfold within. simpl.
  by rewrite bool_decide_eq_true_2.
Qed.

(** X11. [clear_database] does nothing, and cannot fail, when there is no
    store directory.  With an [rmtree] that leaves nothing at the path it
    removed, a clearing that returns leaves no store directory, and
    clearing once more changes nothing. *)
Theorem clear_database_idempotent
    (rmtree : filesystem → string → filesystem * result unit) :
  (∀ fs, fs !! CHROMA_PATH = None → clear_database rmtree fs = (fs, Ok tt))
  ∧ ((∀ fs fs', rmtree fs CHROMA_PATH = (fs', Ok tt) →
                fs' !! CHROMA_PATH = None) →
     ∀ fs fs', clear_database rmtree fs = (fs', Ok tt) →
       fs' !! CHROMA_PATH = None
       ∧ clear_database rmtree fs' = (fs', Ok tt)).
Proof.
  assert (∀ fs, fs !! CHROMA_PATH = None →
                clear_database rmtree fs = (fs, Ok tt)) as Habsent.
  { intros fs Hnone. unfold clear_database, os_path_exists.
    rewrite Hnone. by rewrite bool_decide_eq_false_2 by by intros [??]. }
  split; [exact Habsent|].
  intros Hgone fs fs' Hclear.
  assert (fs' !! CHROMA_PATH = None) as Hnone; [|by split; [|apply Habsent]].
  unfold clear_database, os_path_exists in Hclear.
  case_bool_decide as Hexists.
  - by apply (Hgone fs).
  - injection Hclear as <-.
    destruct (fs !! CHROMA_PATH) eqn:Hfs; [|done].
    exfalso. apply Hexists. by eexists.
Qed.

Lemma clear_database_idempotent_witness :
  (clear_database remove_tree fs_project).2 = Ok tt
  ∧ (clear_database remove_tree fs_project).1 !! "chroma" = None
  ∧ (clear_database remove_tree fs_project).1 !! "books"
    = Some (Directory ["doc.pdf"]).
Proof.
  assert (clear_database remove_tree fs_project
          = ((clear_database remove_tree fs_project).1, Ok tt)) as Hclear
    by by_evaluation.
  split; [by_evaluation|]. split; [|by_evaluation].
  exact (proj1 (proj2 (clear_database_idempotent remove_tree)
                  (λ fs fs', remove_tree_gone fs fs' CHROMA_PATH)
                  fs_project _ Hclear)).
Defined.

(** ** The ingestion program *)

Section database_main_facts.
Context {Store : Type} `{!VectorStore Store}.
Variable rmtree : filesystem → string → filesystem * result unit.
Variable loader : filesystem → string → result (list Document).
Variable splitter : Z → Z → list Document → result (list Document).
Variable open_store :
  filesystem → string → embedding_function → result Store.

Lemma load_missing_directory (fs : filesystem) (path : string) :
  fs !! path = None →
  load_documents_from_directory loader fs path
  = Raise (FileNotFoundError ("Directory " +:+ path +:+ " does not exist")).
Proof.
  intros Hnone. unfold load_documents_from_directory, os_path_exists.
  rewrite Hnone. by rewrite bool_decide_eq_false_2 by by intros [??].
Qed.

Lemma load_empty_directory (fs : filesystem) (path : string) :
  fs !! path = Some (Directory []) →
  load_documents_from_directory loader fs path
  = Raise (ValueError ("Directory " +:+ path +:+ " is empty")).
Proof.
  intros Hdir.
  unfold load_documents_from_directory, os_path_exists, os_listdir.
  rewrite Hdir. by rewrite bool_decide_eq_true_2 by by eexists.
Qed.

Lemma load_populated_directory (fs : filesystem) (path entry : string)
    (entries : list string) :
  fs !! path = Some (Directory (entry :: entries)) →
  load_documents_from_directory loader fs path = loader fs path.
Proof.
  intros Hdir.
  unfold load_documents_from_directory, os_path_exists, os_listdir.
  rewrite Hdir. by rewrite bool_decide_eq_true_2 by by eexists.
Qed.

(** The program up to the point where the store is opened. *)
Lemma database_main_unfold (h : heap) (fs fs1 : filesystem) (reset : bool)
    (r : result unit) :
  (if reset then clear_database rmtree fs else (fs, Ok tt)) = (fs1, r) →
  database_main rmtree loader splitter open_store h fs reset
  = (fs1,
     match r with
     | Raise e => (if reset then [EvPrint "Clearing Database"] else [], Raise e)
     | Ok _ =>
         match
           documents ← load_documents_from_directory loader fs1 DATA_PATH;
           chunks ← split_documents splitter documents 1000 200;
           db ← open_store fs1 CHROMA_PATH get_embedding_function;
           Ok (chunks, db)
         with
         | Raise e =>
             (if reset then [EvPrint "Clearing Database"] else [], Raise e)
         | Ok (chunks, db) =>
             ((if reset then [EvPrint "Clearing Database"] else [])
              ++ (add_to_chroma h db chunks).2.1,
              (add_to_chroma h db chunks).2.2)
         end
     end).
Proof.
  intros Hclear. unfold database_main.
  destruct reset.
  - rewrite Hclear. f_equal. destruct r as [[]|e]; [|done].
    cbn [print lift mbind M_bind app].
    destruct (load_documents_from_directory loader fs1 DATA_PATH)
      as [documents|e]; [|done].
    cbn [mbind result_bind].
    destruct (split_documents splitter documents 1000 200)
      as [chunks|e]; [|done].
    cbn [mbind result_bind].
    destruct (open_store fs1 CHROMA_PATH get_embedding_function)
      as [db|e]; [|done].
    cbn [mbind result_bind M_bind app].
    by destruct (add_to_chroma h db chunks) as [? [? ?]].
  - injection Hclear as <- <-. f_equal.
    cbn [mret M_ret lift mbind M_bind app].
    destruct (load_documents_from_directory loader fs DATA_PATH)
      as [documents|e]; [|done].
    cbn [mbind result_bind].
    destruct (split_documents splitter documents 1000 200)
      as [chunks|e]; [|done].
    cbn [mbind result_bind].
    destruct (open_store fs CHROMA_PATH get_embedding_function)
      as [db|e]; [|done].
    cbn [mbind result_bind M_bind app].
    by destruct (add_to_chroma h db chunks) as [? [? ?]].
Qed.
End database_main_facts.

(** X12. The ingestion program fails before it reaches the store: if the
    clearing asked for by [--reset] raises, nothing is loaded; if the
    source directory is missing or has no entry, the run ends with
    [FileNotFoundError] or [ValueError] and no store call is made,
    whatever opening the store would have done, although a clearing
    asked for has already taken place. *)
Theorem database_main_fails_before_the_store
    {Store : Type} `{!VectorStore Store}
    (rmtree : filesystem → string → filesystem * result unit)
    (loader : filesystem → string → result (list Document))
    (splitter : Z → Z → list Document → result (list Document))
    (open_store : filesystem → string → embedding_function → result Store)
    (h : heap) (fs fs1 : filesystem) (reset : bool) (r : result unit) :
  (if reset then clear_database rmtree fs else (fs, Ok tt)) = (fs1, r) →
  let banner := if reset then [EvPrint "Clearing Database"] else [] in
  (∀ e, r = Raise e →
     database_main rmtree loader splitter open_store h fs reset
     = (fs1, (banner, Raise e)))
  ∧ (r = Ok tt → fs1 !! DATA_PATH = None →
     database_main rmtree loader splitter open_store h fs reset
     = (fs1, (banner,
              Raise (FileNotFoundError "Directory books does not exist"))))
  ∧ (r = Ok tt → fs1 !! DATA_PATH = Some (Directory []) →
     database_main rmtree loader splitter open_store h fs reset
     = (fs1, (banner, Raise (ValueError "Directory books is empty")))).
Proof.
  intros Hclear banner.
  rewrite (database_main_unfold _ _ _ _ h fs fs1 reset r Hclear).
  fold banner. split; [|split].
  - by intros e ->.
  - intros -> Hnone. by rewrite load_missing_directory.
  - intros -> Hdir. by rewrite load_empty_directory.
Qed.

Lemma database_main_fails_before_the_store_witness :
  database_main remove_tree pdf_directory_loader (λ _ _ docs, Ok docs)
    (λ _ _ _, Ok (∅ : gmap string (string * dict)))
    heap_two_pages fs_no_books true
  = (∅, ([EvPrint "Clearing Database"],
         Raise (FileNotFoundError "Directory books does not exist"))).
Proof.
  refine (proj1 (proj2 (database_main_fails_before_the_store
    remove_tree pdf_directory_loader (λ _ _ docs, Ok docs)
    (λ _ _ _, Ok (∅ : gmap string (string * dict)))
    heap_two_pages fs_no_books ∅ true (Ok tt) _)) eq_refl _).
  - by_evaluation.
  - by_evaluation.
Defined.

(** X13. A source directory that has entries but yields no document (no
    PDF among them) makes the run end with the splitter's guard,
    [ValueError: No documents to split], before the store is reached. *)
Theorem database_main_without_documents
    {Store : Type} `{!VectorStore Store}
    (rmtree : filesystem → string → filesystem * result unit)
    (loader : filesystem → string → result (list Document))
    (splitter : Z → Z → list Document → result (list Document))
    (open_store : filesystem → string → embedding_function → result Store)
    (h : heap) (fs fs1 : filesystem) (reset : bool)
    (entry : string) (entries : list string) :
  (if reset then clear_database rmtree fs else (fs, Ok tt)) = (fs1, Ok tt) →
  fs1 !! DATA_PATH = Some (Directory (entry :: entries)) →
  loader fs1 DATA_PATH = Ok [] →
  database_main rmtree loader splitter open_store h fs reset
  = (fs1, (if reset then [EvPrint "Clearing Database"] else [],
           Raise (ValueError "No documents to split"))).
Proof.
  intros Hclear Hdir Hload.
  rewrite (database_main_unfold _ _ _ _ h fs fs1 reset _ Hclear).
  by rewrite (load_populated_directory _ _ _ _ _ Hdir), Hload.
Qed.

Lemma database_main_without_documents_witness :
  database_main remove_tree pdf_directory_loader (λ _ _ docs, Ok docs)
    (λ _ _ _, Ok (∅ : gmap string (string * dict)))
    ∅ (<["books" := Directory ["notes.txt"]]> fs_no_books) false
  = (<["books" := Directory ["notes.txt"]]> fs_no_books,
     ([], Raise (ValueError "No documents to split"))).
Proof.
  apply (database_main_without_documents
    remove_tree pdf_directory_loader (λ _ _ docs, Ok docs)
    (λ _ _ _, Ok (∅ : gmap string (string * dict)))
    ∅ _ _ false "notes.txt" []).
  - exact eq_refl.
  - by_evaluation.
  - by_evaluation.
Defined.

(** X14. Running the program without [--reset] when the opened store
    already reports every id of the batch reads the ids, prints the two
    lines and writes nothing: no upsert, no persist, and the file system
    is not touched by the program. *)
Theorem database_main_second_run
    {Store : Type} `{!VectorStore Store}
    (rmtree : filesystem → string → filesystem * result unit)
    (loader : filesystem → string → result (list Document))
    (splitter : Z → Z → list Document → result (list Document))
    (open_store : filesystem → string → embedding_function → result Store)
    (h : heap) (fs : filesystem) (documents chunks : list Document)
    (db : Store) (existing : list string) :
  load_documents_from_directory loader fs DATA_PATH = Ok documents →
  split_documents splitter documents 1000 200 = Ok chunks →
  open_store fs CHROMA_PATH get_embedding_function = Ok db →
  db_get db = Ok existing →
  (∀ id, PyStr id ∈ chunk_ids h chunks → id ∈ existing) →
  database_main rmtree loader splitter open_store h fs false
  = (fs,
     ([EvGet;
       EvPrint ("Number of existing documents in DB: "
                +:+ pretty (size (list_to_set existing : gset string)));
       EvPrint "No new documents to add"],
      Ok db)).
Proof.
  intros Hload Hsplit Hopen Hget Hall.
  rewrite (database_main_unfold _ _ _ _ h fs fs false (Ok tt) eq_refl).
  rewrite Hload. cbn [mbind result_bind]. rewrite Hsplit.
  cbn [mbind result_bind]. rewrite Hopen. cbn [mbind result_bind].
  rewrite (add_to_chroma_unfold h db chunks existing Hget). cbv zeta.
  cbn [fst snd].
  pose proof (no_new_chunks h chunks existing Hall) as Hnone.
  by rewrite Hnone.
Qed.

Lemma database_main_second_run_witness :
  database_main remove_tree pdf_directory_loader (λ _ _ docs, Ok docs)
    (λ _ _ _, Ok store_two_pages) heap_two_pages fs_project false
  = (fs_project,
     ([EvGet; EvPrint "Number of existing documents in DB: 2";
       EvPrint "No new documents to add"],
      Ok store_two_pages)).
Proof.
  etrans.
  - apply (database_main_second_run
      remove_tree pdf_directory_loader (λ _ _ docs, Ok docs)
      (λ _ _ _, Ok store_two_pages) heap_two_pages fs_project
      chunks_two_pages chunks_two_pages store_two_pages
      (elements (dom store_two_pages))).
    + by_evaluation.
    + exact eq_refl.
    + exact eq_refl.
    + exact eq_refl.
    + intros id Hid. apply (bool_decide_unpack _).
      assert (chunk_ids heap_two_pages chunks_two_pages
              = [PyStr "doc.pdf:0:0"; PyStr "doc.pdf:1:0"]) as Hids
        by by_evaluation.
      rewrite Hids in Hid.
      repeat (apply elem_of_cons in Hid as [Hid|Hid];
              [injection Hid as ->; by_evaluation|]).
      exfalso. exact (proj1 (elem_of_nil _) Hid).
  - by_evaluation.
Defined.

(** X15. With [--reset], when the clearing returns and the store then
    opens empty, the whole batch is handed to [add_documents] in one
    call, every chunk in batch order with its id, and persisted if the
    upsert returns. *)
Theorem database_main_reset_submits_the_batch
    {Store : Type} `{!VectorStore Store}
    (rmtree : filesystem → string → filesystem * result unit)
    (loader : filesystem → string → result (list Document))
    (splitter : Z → Z → list Document → result (list Document))
    (open_store : filesystem → string → embedding_function → result Store)
    (h : heap) (fs fs1 : filesystem) (documents chunks : list Document)
    (db : Store) :
  clear_database rmtree fs = (fs1, Ok tt) →
  load_documents_from_directory loader fs1 DATA_PATH = Ok documents →
  split_documents splitter documents 1000 200 = Ok chunks →
  chunks ≠ [] →
  open_store fs1 CHROMA_PATH get_embedding_function = Ok db →
  db_get db = Ok [] →
  let h1 := (calculate_chunk_ids h chunks).1 in
  let run := database_main rmtree loader splitter open_store h fs true in
  run.1 = fs1
  ∧ upserted run.2.1 = [(snapshot h1 <$> chunks, chunk_ids h chunks)]
  ∧ (EvPersist ∈ run.2.1
     ↔ ∃ db', db_add_documents (snapshot h1 <$> chunks)
                (chunk_ids h chunks) db = Ok db').
Proof.
  intros Hclear Hload Hsplit Hne Hopen Hget h1 run. subst run.
  rewrite (database_main_unfold _ _ _ _ h fs fs1 true (Ok tt) Hclear).
  rewrite Hload. cbn [mbind result_bind]. rewrite Hsplit.
  cbn [mbind result_bind]. rewrite Hopen. cbn [mbind result_bind].
  rewrite (add_to_chroma_unfold h db chunks [] Hget). cbv zeta.
  fold h1. rewrite all_new_for_empty_store. cbn [fst snd].
  change ((λ chunk, metadata_get h1 chunk "id") <$> chunks)
    with (chunk_ids h chunks).
  destruct chunks as [|c cs] eqn:Hchunks; [done|]. rewrite <-Hchunks.
  set (docs := snapshot h1 <$> chunks). set (ids := chunk_ids h chunks).
  clearbody docs ids.
  split; [done|].
  destruct (db_add_documents docs ids db) as [db'|e]; cbn.
  - split; [done|]. split; [by eexists|].
    intros _. do 5 (apply elem_of_cons; right). apply elem_of_cons. by left.
  - split; [done|]. split; [|by intros [? [=]]].
    intros Hin.
    repeat (apply elem_of_cons in Hin as [Hin|Hin]; [done|]).
    by apply elem_of_nil in Hin.
Qed.

Lemma database_main_reset_submits_the_batch_witness :
  upserted (database_main remove_tree pdf_directory_loader
              (λ _ _ docs, Ok docs)
              (λ _ _ _, Ok (∅ : gmap string (string * dict)))
              heap_two_pages fs_project true).2.1
  = [([("first page", <["id" := PyStr "doc.pdf:0:0"]> (mk_meta "doc.pdf" 0));
       ("second page", <["id" := PyStr "doc.pdf:1:0"]> (mk_meta "doc.pdf" 1))],
      [PyStr "doc.pdf:0:0"; PyStr "doc.pdf:1:0"])].
Proof.
  etrans.
  - refine (proj1 (proj2 (database_main_reset_submits_the_batch
      remove_tree pdf_directory_loader (λ _ _ docs, Ok docs)
      (λ _ _ _, Ok (∅ : gmap string (string * dict)))
      heap_two_pages fs_project (clear_database remove_tree fs_project).1
      chunks_two_pages chunks_two_pages ∅ _ _ eq_refl _ eq_refl _))).
    + by_evaluation.
    + by_evaluation.
    + discriminate.
    + by_evaluation.
  - by_evaluation.
Defined.

(** ** A call of [query_rag] *)



(** X17. A search that finds nothing does not stop the query: the model
    is still asked, with the template around an empty context, and the
    answer is printed with an empty source list. *)
Theorem query_rag_without_results {Store score : Type}
    (search : Store → string → nat → result (list (Document * score)))
    (invoke : string → result string)
    (h : heap) (db : Store) (query_text response_text : string) :
  search db query_text 5 = Ok [] →
  let prompt :=
    "Human: " +:+ newline
    +:+ "Answer the question based only on the following context:"
    +:+ newline +:+ newline
    +:+ newline +:+ newline +:+ "---" +:+ newline +:+ newline
    +:+ "Answer the question based on the above context: "
    +:+ query_text +:+ newline in
  invoke prompt = Ok response_text →
  query_rag search invoke h db query_text
  = ([EvSimilaritySearch query_text 5;
      EvInvoke prompt;
      EvPrint ("Response: " +:+ response_text +:+ newline
               +:+ "Sources: []")],
     Ok response_text).
Proof.
  intros Hsearch prompt Hinvoke.
  unfold query_rag. rewrite Hsearch. cbn [call mbind M_bind app].
  rewrite PROMPT_TEMPLATE_format. cbn [lift call mbind M_bind app].
  change (invoke _) with (invoke prompt). rewrite Hinvoke.
  reflexivity.
Qed.

Lemma query_rag_without_results_witness :
  query_rag (score := nat) (λ _ _ _, Ok []) (λ _, Ok "I do not know.")
    ∅ tt "Who is the fox?"
  = ([EvSimilaritySearch "Who is the fox?" 5;
      EvInvoke ("Human: " +:+ newline
        +:+ "Answer the question based only on the following context:"
        +:+ newline +:+ newline +:+ newline +:+ newline +:+ "---"
        +:+ newline +:+ newline
        +:+ "Answer the question based on the above context: "
        +:+ "Who is the fox?" +:+ newline);
      EvPrint ("Response: I do not know." +:+ newline +:+ "Sources: []")],
     Ok "I do not know.").
Proof.
  exact (query_rag_without_results (score := nat)
           (λ _ _ _, Ok []) (λ _, Ok "I do not know.")
           ∅ tt "Who is the fox?" "I do not know." eq_refl eq_refl).
Defined.
